(** * Car rental reservation engine: a model of [cars_rental.py]

    The development embeds the reservation engine of [cars_rental.py]:
    the data classes, the in-memory inventory ([InMemoryCarInventory]),
    the abstract inventory interface ([CarInventory]) and the facade
    ([CarRentalSystem]).

    Modelling conventions.
    - A [datetime] is a naive Python datetime, as [datetime.now()] returns
      it, counted in microseconds since [datetime.min]
      (0001-01-01 00:00:00).  Comparison of naive datetimes is comparison
      of these counts.
    - [timedelta(days=d)] and [datetime + timedelta] are the library's:
      exact integer arithmetic that raises [OverflowError] outside the
      library's ranges.
    - A method is a computation over the object it is called on: it reads
      the clock, reads and updates the object, and either returns a value
      or raises.  An exception does not roll the object back: the state
      that comes with [Raise] is the state at the raise.
    - [self.reservations] is a dict from car identifier to a list; it is a
      [gmap Z (list Reservation)]. *)

From stdpp Require Import base gmap list strings.
From Stdlib Require Import ZArith Lia.

Local Open Scope Z_scope.

(** ** Exceptions and outcomes *)

(** The exception classes that can reach a caller, each with its message.
    [ValueError] and [OverflowError] are Python's own; the messages of
    [OverflowError] are the library's and are not recorded. *)
Inductive exn : Type :=
  | ValueError (msg : string)
  | NoAvailableCarsError (msg : string)
  | OverflowError.

#[global] Instance exn_eq_dec : EqDecision exn.
Proof. solve_decision. Defined.

Inductive outcome (A : Type) : Type :=
  | Return (a : A)
  | Raise (e : exn).
Arguments Return {A} a.
Arguments Raise {A} e.

(** The exception class alone, as an [except] clause sees it. *)
Inductive exn_class : Type := ClsValueError | ClsNoAvailableCarsError | ClsOverflowError.

Definition class_of (e : exn) : exn_class :=
  match e with
  | ValueError _ => ClsValueError
  | NoAvailableCarsError _ => ClsNoAvailableCarsError
  | OverflowError => ClsOverflowError
  end.

(** ** The datetime library *)

Abbreviation datetime := Z (only parsing).

Definition US_PER_DAY : Z := 86400000000.

(** [datetime.max] is 9999-12-31 23:59:59.999999; [date.max.toordinal()]
    is 3652059. *)
Definition DATETIME_MAX : Z := 3652059 * US_PER_DAY - 1.

(** [timedelta.max.days] *)
Definition TIMEDELTA_MAX_DAYS : Z := 999999999.

(** [timedelta(days=days)], as a count of microseconds.  The library
    accepts [-999999999 <= days <= 999999999] and raises [OverflowError]
    otherwise. *)
Definition timedelta (days : Z) : outcome Z :=
  if (- TIMEDELTA_MAX_DAYS <=? days) && (days <=? TIMEDELTA_MAX_DAYS)
  then Return (days * US_PER_DAY)
  else Raise OverflowError.

(** [d + delta] on a datetime.  The library raises [OverflowError] when
    the sum is before [datetime.min] or after [datetime.max]. *)
Definition datetime_add (d : datetime) (delta : Z) : outcome datetime :=
  if (0 <=? d + delta) && (d + delta <=? DATETIME_MAX)
  then Return (d + delta)
  else Raise OverflowError.

(** ** Data classes *)

Inductive CarType : Type := SEDAN | SUV | VAN.

#[global] Instance CarType_eq_dec : EqDecision CarType.
Proof. solve_decision. Defined.

Record ReservationPeriod : Type := mkPeriod {
  start_date : datetime;
  end_date : datetime
}.

Definition conflicts_with (self other : ReservationPeriod) : bool :=
  negb ((end_date self <=? start_date other)
        || (start_date self >=? end_date other)).

Record Car : Type := mkCar {
  car_id : Z;
  car_type : CarType
}.

Record Reservation : Type := mkReservation {
  res_car_id : Z;
  period : ReservationPeriod
}.

#[global] Instance ReservationPeriod_eq_dec : EqDecision ReservationPeriod.
Proof. solve_decision. Defined.
#[global] Instance Car_eq_dec : EqDecision Car.
Proof. solve_decision. Defined.
#[global] Instance Reservation_eq_dec : EqDecision Reservation.
Proof. solve_decision. Defined.

(** ** Methods as computations

    [M S A]: a method of an object with state [S] returning an [A].  The
    first argument is the reading [datetime.now()] gives during the call. *)

Definition M (S A : Type) : Type := datetime -> S -> outcome A * S.

Section Monad.
Context {S : Type}.

Definition ret {A} (a : A) : M S A := fun _ s => (Return a, s).

Definition bind {A B} (m : M S A) (k : A -> M S B) : M S B :=
  fun clk s =>
    match m clk s with
    | (Return a, s') => k a clk s'
    | (Raise e, s') => (Raise e, s')
    end.

Definition raise {A} (e : exn) : M S A := fun _ s => (Raise e, s).

(** An attribute read [self.f]. *)
Definition gets {A} (f : S -> A) : M S A := fun _ s => (Return (f s), s).

(** An in-place update of [self]. *)
Definition modify (f : S -> S) : M S unit := fun _ s => (Return tt, f s).

(** [datetime.now()] *)
Definition datetime_now : M S datetime := fun clk s => (Return clk, s).

(** A library call, which touches no object. *)
Definition lift {A} (o : outcome A) : M S A := fun _ s => (o, s).
End Monad.

Notation "'do' x <- m ;; k" := (bind m (fun x => k))
  (at level 10, x name, m at level 99, k at level 200).

(** ** The in-memory inventory *)

Record InMemoryCarInventory : Type := mkInventory {
  cars : list Car;
  reservations : gmap Z (list Reservation)
}.

(** [InMemoryCarInventory.__init__] *)
Definition InMemoryCarInventory_init : InMemoryCarInventory :=
  {| cars := []; reservations := ∅ |}.

(** [self.reservations.get(car_id, [])] *)
Definition reservations_get (self : InMemoryCarInventory) (cid : Z)
  : list Reservation :=
  default [] (reservations self !! cid).

Definition add_car (car : Car) : M InMemoryCarInventory unit :=
  modify (fun self =>
    {| cars := cars self ++ [car]; reservations := reservations self |}).

Definition _is_period_conflicting (start end_ : datetime) (res : Reservation)
  : bool :=
  negb ((end_date (period res) <=? start)
        || (start_date (period res) >=? end_)).

(** [ReservationPeriod(start_date, start_date + timedelta(days=days))] *)
Definition new_period (start : datetime) (days : Z)
  : outcome ReservationPeriod :=
  match timedelta days with
  | Raise e => Raise e
  | Return delta =>
      match datetime_add start delta with
      | Raise e => Raise e
      | Return e => Return {| start_date := start; end_date := e |}
      end
  end.

Definition is_car_reserved (cid : Z) (start : datetime) (days : Z)
  : M InMemoryCarInventory bool :=
  do p <- lift (new_period start days) ;;
  do rs <- gets (fun self => reservations_get self cid) ;;
  ret (existsb (fun res => conflicts_with p (period res)) rs).

(** The list comprehension shared by [check_availability] and
    [reserve_car]:
    [[car for car in self.cars
      if car.car_type == car_type
         and not self.is_car_reserved(car.car_id, start_date, days)]].
    [and] does not call [is_car_reserved] for a car of another type. *)
Fixpoint available_among (ct : CarType) (start : datetime) (days : Z)
    (cs : list Car) : M InMemoryCarInventory (list Car) :=
  match cs with
  | [] => ret []
  | car :: rest =>
      if decide (car_type car = ct) then
        do reserved <- is_car_reserved (car_id car) start days ;;
        do tl <- available_among ct start days rest ;;
        ret (if reserved then tl else car :: tl)
      else available_among ct start days rest
  end.

Definition available_cars (ct : CarType) (start : datetime) (days : Z)
  : M InMemoryCarInventory (list Car) :=
  do cs <- gets cars ;;
  available_among ct start days cs.

Definition check_availability (ct : CarType) (start : datetime) (days : Z)
  : M InMemoryCarInventory bool :=
  do available <- available_cars ct start days ;;
  ret (0 <? Z.of_nat (length available)).

Definition InvalidDuration : exn :=
  ValueError "The number of reservation days must be greater than zero.".

Definition PastStartDate : exn :=
  ValueError "The reservation start date cannot be in the past.".

Definition NoAvailableCars : exn :=
  NoAvailableCarsError "No cars available for the requested type and dates".

(** [self.reservations.setdefault(cid, []).append(reservation)] *)
Definition append_reservation (cid : Z) (reservation : Reservation)
    (self : InMemoryCarInventory) : InMemoryCarInventory :=
  {| cars := cars self;
     reservations :=
       <[cid := reservations_get self cid ++ [reservation]]>
         (reservations self) |}.

Definition reserve_car (ct : CarType) (start : datetime) (days : Z)
  : M InMemoryCarInventory Reservation :=
  if decide (days <= 0) then raise InvalidDuration
  else
    do now <- datetime_now ;;
    if decide (start < now) then raise PastStartDate
    else
      do available <- available_cars ct start days ;;
      match available with
      | car_to_reserve :: _ =>
          do p <- lift (new_period start days) ;;
          let reservation :=
            {| res_car_id := car_id car_to_reserve; period := p |} in
          do _ <- modify (append_reservation (car_id car_to_reserve) reservation) ;;
          ret reservation
      | [] => raise NoAvailableCars
      end.

(** ** The abstract inventory and the facade *)

(** The abstract base class [CarInventory]: the three methods a store
    must provide. *)
Class CarInventory (S : Type) : Type := {
  inv_add_car : Car -> M S unit;
  inv_check_availability : CarType -> datetime -> Z -> M S bool;
  inv_reserve_car : CarType -> datetime -> Z -> M S Reservation
}.

#[global] Instance InMemoryCarInventory_CarInventory
  : CarInventory InMemoryCarInventory := {|
  inv_add_car := add_car;
  inv_check_availability := check_availability;
  inv_reserve_car := reserve_car
|}.

Module CarRentalSystem.
Section Facade.
Context {S : Type} `{CarInventory S}.

(** The facade object: one attribute, [self.inventory]. *)
Record t : Type := mk { inventory : S }.

(** A method call on [self.inventory]: the store is the facade's own
    attribute, so what the call does to the store it does to the facade. *)
Definition on_inventory {A} (m : M S A) : M t A :=
  fun clk self =>
    let '(r, inv) := m clk (inventory self) in (r, {| inventory := inv |}).

Definition add_car (car_id : Z) (car_type : CarType) : M t unit :=
  let car := {| car_id := car_id; car_type := car_type |} in
  on_inventory (inv_add_car car).

Definition reserve_car (ct : CarType) (start : datetime) (days : Z)
  : M t Reservation :=
  on_inventory (inv_reserve_car ct start days).

Definition check_availability (ct : CarType) (start : datetime) (days : Z)
  : M t bool :=
  on_inventory (inv_check_availability ct start days).

End Facade.
Arguments t S : clear implicits.
End CarRentalSystem.

(** ** Call sequences on an inventory *)

Inductive call : Type :=
  | CallAddCar (car : Car)
  | CallCheckAvailability (ct : CarType) (start : datetime) (days : Z)
  | CallReserveCar (ct : CarType) (start : datetime) (days : Z).

(** The inventory after one call made while the clock reads [clk], whether
    the call returned or raised. *)
Definition after_call (c : call) (clk : datetime) (s : InMemoryCarInventory)
  : InMemoryCarInventory :=
  match c with
  | CallAddCar car => snd (add_car car clk s)
  | CallCheckAvailability ct start days =>
      snd (check_availability ct start days clk s)
  | CallReserveCar ct start days => snd (reserve_car ct start days clk s)
  end.

(** The inventories a caller can produce from a new one. *)
Inductive reachable : InMemoryCarInventory -> Prop :=
  | reachable_init : reachable InMemoryCarInventory_init
  | reachable_call s c clk :
      reachable s -> reachable (after_call c clk s).

(** ** Properties stated by the specification *)

(** No two reservations held for one car identifier conflict. *)
Definition no_double_booking (s : InMemoryCarInventory) : Prop :=
  forall cid rs (i j : nat) ri rj,
    reservations s !! cid = Some rs ->
    i <> j -> rs !! i = Some ri -> rs !! j = Some rj ->
    conflicts_with (period ri) (period rj) = false.

(** The half-open range [[start, start + days)] of a request. *)
Definition requested_period (start : datetime) (days : Z) : ReservationPeriod :=
  {| start_date := start; end_date := start + days * US_PER_DAY |}.

(** The range of a request is one the datetime library can build. *)
Definition representable (start : datetime) (days : Z) : Prop :=
  - TIMEDELTA_MAX_DAYS <= days <= TIMEDELTA_MAX_DAYS
  /\ 0 <= start + days * US_PER_DAY <= DATETIME_MAX.

(** No reservation held for the car's identifier conflicts with [p]. *)
Definition car_free (s : InMemoryCarInventory) (p : ReservationPeriod)
    (car : Car) : Prop :=
  forall r, r ∈ reservations_get s (car_id car) ->
    conflicts_with p (period r) = false.

(** A car a request for [ct] over [p] can take. *)
Definition candidate (s : InMemoryCarInventory) (ct : CarType)
    (p : ReservationPeriod) (car : Car) : Prop :=
  car_type car = ct /\ car_free s p car.

(** The boolean tests the list comprehension performs on one car, the
    requested range [p] being built. *)
Definition freeb (s : InMemoryCarInventory) (p : ReservationPeriod)
    (car : Car) : bool :=
  negb (existsb (fun res => conflicts_with p (period res))
          (reservations_get s (car_id car))).

Definition candidateb (s : InMemoryCarInventory) (ct : CarType)
    (p : ReservationPeriod) (car : Car) : bool :=
  bool_decide (car_type car = ct) && freeb s p car.

(** ** Example data: the fleet of the test suite's [setUp] *)

(** 2030-01-01 00:00:00 *)
Definition t2030 : datetime := 741077 * US_PER_DAY.

Definition one_sedan : InMemoryCarInventory :=
  {| cars := [mkCar 1 SEDAN]; reservations := ∅ |}.

Definition test_fleet : InMemoryCarInventory :=
  {| cars := [mkCar 1 SEDAN; mkCar 2 SEDAN; mkCar 3 SUV; mkCar 4 VAN];
     reservations := ∅ |}.

(** ** Callers that repeat calls *)

(** The loop of [test_large_number_of_reservations],
    [for i in range(n): reservation = reserve_car(car_type, start_date, 3)],
    for any request: one call per clock reading, the reservations collected
    in order; the first exception ends the loop and reaches the caller. *)
Fixpoint reserve_each (ct : CarType) (start : datetime) (days : Z)
    (clks : list datetime) (s : InMemoryCarInventory)
  : outcome (list Reservation) * InMemoryCarInventory :=
  match clks with
  | [] => (Return [], s)
  | clk :: rest =>
      match reserve_car ct start days clk s with
      | (Raise e, s') => (Raise e, s')
      | (Return r, s') =>
          match reserve_each ct start days rest s' with
          | (Raise e, s'') => (Raise e, s'')
          | (Return rs, s'') => (Return (r :: rs), s'')
          end
      end
  end.

(** The inventory after a sequence of calls, each made at its own clock
    reading. *)
Definition after_calls (cs : list (call * datetime))
    (s : InMemoryCarInventory) : InMemoryCarInventory :=
  fold_left (fun s c => after_call (fst c) (snd c) s) cs s.

(** ** Properties of the ledger read off the code *)

(** Every key of the reservation dict is the identifier of a car of the
    fleet, holds at least one reservation, and holds only reservations
    made out to that identifier. *)
Definition ledger_refers_to_fleet (s : InMemoryCarInventory) : Prop :=
  forall cid rs, reservations s !! cid = Some rs ->
    rs <> []
    /\ (exists car, car ∈ cars s /\ car_id car = cid)
    /\ forall r, r ∈ rs -> res_car_id r = cid.

(** A range of a whole number of days, at least one, ending within the
    library's datetimes. *)
Definition whole_days (p : ReservationPeriod) : Prop :=
  exists d, 1 <= d /\ end_date p = start_date p + d * US_PER_DAY
    /\ end_date p <= DATETIME_MAX.

Definition periods_whole_days (s : InMemoryCarInventory) : Prop :=
  forall cid rs r, reservations s !! cid = Some rs -> r ∈ rs ->
    whole_days (period r).

(** [s'] holds all of [s], in place: the fleet of [s] starts the fleet of
    [s'], and every list of [s] starts the list of [s'] under the same
    identifier. *)
Definition ledger_extends (s s' : InMemoryCarInventory) : Prop :=
  cars s `prefix_of` cars s'
  /\ forall cid, reservations_get s cid `prefix_of` reservations_get s' cid.

(** The two half-open ranges share an instant. *)
Definition share_instant (a b : ReservationPeriod) : Prop :=
  exists t, start_date a <= t < end_date a /\ start_date b <= t < end_date b.

(** Some car of the fleet is of the category. *)
Definition has_car_of (s : InMemoryCarInventory) (ct : CarType) : Prop :=
  exists car, car ∈ cars s /\ car_type car = ct.

(** * Basic facts *)

Lemma new_period_representable start days :
  representable start days ->
  new_period start days = Return (requested_period start days).
Proof.
  intros [[Hlo Hhi] [Hlo' Hhi']].
  unfold new_period, timedelta, datetime_add, requested_period.
  apply Z.leb_le in Hlo, Hhi, Hlo', Hhi'.
  rewrite Hlo, Hhi. simpl. by rewrite Hlo', Hhi'.
Qed.

Lemma new_period_not_representable start days :
  ~ representable start days ->
  new_period start days = Raise OverflowError.
Proof.
  intros Hn. unfold new_period, timedelta, datetime_add.
  destruct (_ && _) eqn:Hd; [|done].
  destruct ((0 <=? _) && _) eqn:Ha; [|done].
  exfalso. apply Hn. unfold representable.
  apply andb_prop in Hd as [?%Z.leb_le ?%Z.leb_le].
  apply andb_prop in Ha as [?%Z.leb_le ?%Z.leb_le].
  lia.
Qed.

Lemma new_period_cases start days :
  (representable start days
   /\ new_period start days = Return (requested_period start days))
  \/ (~ representable start days
      /\ new_period start days = Raise OverflowError).
Proof.
  destruct (new_period start days) as [p|e] eqn:Hp.
  - left. assert (Hr : representable start days).
    { unfold new_period, timedelta, datetime_add in Hp.
      destruct (_ && _) eqn:Hd; [|done].
      destruct ((0 <=? _) && _) eqn:Ha; [|done].
      apply andb_prop in Hd as [?%Z.leb_le ?%Z.leb_le].
      apply andb_prop in Ha as [?%Z.leb_le ?%Z.leb_le].
      unfold representable. lia. }
    split; [done|]. rewrite <- Hp. by apply new_period_representable.
  - right. assert (Hn : ~ representable start days).
    { intros Hr. rewrite (new_period_representable _ _ Hr) in Hp. done. }
    split; [done|]. rewrite <- Hp. by apply new_period_not_representable.
Qed.

Lemma conflicts_with_sym a b : conflicts_with a b = conflicts_with b a.
Proof.
  unfold conflicts_with.
  destruct (Z.leb_spec (end_date a) (start_date b)),
           (Z.geb_spec (start_date a) (end_date b)),
           (Z.leb_spec (end_date b) (start_date a)),
           (Z.geb_spec (start_date b) (end_date a)); simpl; try done; lia.
Qed.

(** The unused helper [_is_period_conflicting] is the same test. *)
Lemma _is_period_conflicting_conflicts_with start end_ res :
  _is_period_conflicting start end_ res
  = conflicts_with (mkPeriod start end_) (period res).
Proof.
  unfold _is_period_conflicting.
  by rewrite (conflicts_with_sym (mkPeriod start end_)).
Qed.

Lemma freeb_car_free s p car : freeb s p car = true <-> car_free s p car.
Proof.
  unfold freeb, car_free. rewrite negb_true_iff. split.
  - intros Hex r Hr.
    destruct (conflicts_with p (period r)) eqn:Hc; [|done].
    assert (existsb (fun res => conflicts_with p (period res))
              (reservations_get s (car_id car)) = true) as Ht; [|congruence].
    apply existsb_exists. exists r. split; [by apply list_elem_of_In|done].
  - intros Hall.
    destruct (existsb _ _) eqn:Hex; [|done].
    apply existsb_exists in Hex as (r & Hr & Hc).
    apply list_elem_of_In in Hr. rewrite (Hall r Hr) in Hc. done.
Qed.

Lemma candidateb_candidate s ct p car :
  candidateb s ct p car = true <-> candidate s ct p car.
Proof.
  unfold candidateb, candidate.
  rewrite andb_true_iff, bool_decide_eq_true, freeb_car_free. done.
Qed.

Lemma candidateb_not_candidate s ct p car :
  candidateb s ct p car = false <-> ~ candidate s ct p car.
Proof.
  rewrite <- candidateb_candidate.
  destruct (candidateb s ct p car); split; try done; intros []; done.
Qed.

(** * What the methods compute *)

Lemma is_car_reserved_run cid start days clk s :
  is_car_reserved cid start days clk s =
  match new_period start days with
  | Return p =>
      (Return (existsb (fun res => conflicts_with p (period res))
                 (reservations_get s cid)), s)
  | Raise e => (Raise e, s)
  end.
Proof.
  unfold is_car_reserved, bind, lift, gets, ret.
  by destruct (new_period start days).
Qed.

(** With a range the library can build, the comprehension is a filter. *)
Lemma available_among_Return ct start days p cs clk s :
  new_period start days = Return p ->
  available_among ct start days cs clk s
  = (Return (List.filter (candidateb s ct p) cs), s).
Proof.
  intros Hp. induction cs as [|car rest IH]; [done|].
  simpl. unfold candidateb at 1, freeb.
  destruct (decide (car_type car = ct)) as [Hct|Hct].
  - rewrite (bool_decide_eq_true_2 _ Hct). simpl.
    unfold bind at 1. rewrite is_car_reserved_run, Hp.
    unfold bind, ret. rewrite IH.
    by destruct (existsb _ _).
  - by rewrite (bool_decide_eq_false_2 _ Hct).
Qed.

(** Without one, the first car of the requested type makes it raise. *)
Lemma available_among_Raise ct start days e cs clk s :
  new_period start days = Raise e ->
  available_among ct start days cs clk s
  = if existsb (fun car => bool_decide (car_type car = ct)) cs
    then (Raise e, s) else (Return [], s).
Proof.
  intros Hp. induction cs as [|car rest IH]; [done|].
  simpl. destruct (decide (car_type car = ct)) as [Hct|Hct].
  - rewrite (bool_decide_eq_true_2 _ Hct). simpl.
    unfold bind. by rewrite is_car_reserved_run, Hp.
  - by rewrite (bool_decide_eq_false_2 _ Hct).
Qed.

Lemma check_availability_run ct start days clk s :
  check_availability ct start days clk s =
  match new_period start days with
  | Return p =>
      (Return (0 <? Z.of_nat (length (List.filter (candidateb s ct p) (cars s)))),
       s)
  | Raise e =>
      if existsb (fun car => bool_decide (car_type car = ct)) (cars s)
      then (Raise e, s) else (Return false, s)
  end.
Proof.
  unfold check_availability, available_cars, bind, gets, ret.
  destruct (new_period start days) as [p|e] eqn:Hp.
  - by rewrite (available_among_Return _ _ _ p).
  - rewrite (available_among_Raise _ _ _ e); [|done].
    by destruct (existsb _ _).
Qed.

Lemma reserve_car_run ct start days clk s :
  reserve_car ct start days clk s =
  if decide (days <= 0) then (Raise InvalidDuration, s)
  else if decide (start < clk) then (Raise PastStartDate, s)
  else
    match new_period start days with
    | Return p =>
        match List.filter (candidateb s ct p) (cars s) with
        | car :: _ =>
            let r := {| res_car_id := car_id car; period := p |} in
            (Return r, append_reservation (car_id car) r s)
        | [] => (Raise NoAvailableCars, s)
        end
    | Raise e =>
        if existsb (fun car => bool_decide (car_type car = ct)) (cars s)
        then (Raise e, s) else (Raise NoAvailableCars, s)
    end.
Proof.
  unfold reserve_car.
  destruct (decide (days <= 0)); [done|].
  unfold bind at 1, datetime_now.
  destruct (decide (start < clk)); [done|].
  unfold available_cars, bind, gets, ret, raise, lift, modify.
  destruct (new_period start days) as [p|e] eqn:Hp.
  - rewrite (available_among_Return _ _ _ p); [|done].
    by destruct (List.filter _ _).
  - rewrite (available_among_Raise _ _ _ e); [|done].
    by destruct (existsb _ _).
Qed.

(** The head of a filter is the first element that passes the test. *)
Lemma filter_head_first {A} (f : A -> bool) (l : list A) x tl :
  List.filter f l = x :: tl ->
  exists i : nat, l !! i = Some x /\ f x = true
    /\ forall (j : nat) y, (j < i)%nat -> l !! j = Some y -> f y = false.
Proof.
  induction l as [|a l IH]; [done|]. simpl.
  destruct (f a) eqn:Hfa.
  - intros [= -> _]. exists 0%nat. repeat split; [done|]. intros; lia.
  - intros (i & Hi & Hfx & Hlt)%IH. exists (S i). repeat split; [done..|].
    intros [|j] y Hj Hy; simpl in Hy; [by simplify_eq|].
    apply (Hlt j); [lia|done].
Qed.

Lemma first_filter_head {A} (f : A -> bool) (l : list A) (i : nat) x :
  l !! i = Some x -> f x = true ->
  (forall (j : nat) y, (j < i)%nat -> l !! j = Some y -> f y = false) ->
  exists tl, List.filter f l = x :: tl.
Proof.
  revert i. induction l as [|a l IH]; intros i Hi Hfx Hlt; [done|].
  destruct i as [|i]; simpl in *.
  - simplify_eq. rewrite Hfx. eauto.
  - rewrite (Hlt 0%nat a); [|lia|done].
    apply (IH i); [done..|]. intros j y Hj Hy. apply (Hlt (S j)); [lia|done].
Qed.

Lemma filter_nil_iff {A} (f : A -> bool) (l : list A) :
  List.filter f l = [] <-> forall y, y ∈ l -> f y = false.
Proof.
  induction l as [|a l IH]; simpl.
  - split; [|done]. intros _ y Hy. by apply not_elem_of_nil in Hy.
  - destruct (f a) eqn:Hfa.
    + split; [done|]. intros Hall. rewrite (Hall a) in Hfa; [done|]. left.
    + rewrite IH. split.
      * intros Hall y [->|Hy]%elem_of_cons; [done|by apply Hall].
      * intros Hall y Hy. apply Hall. by right.
Qed.

(** * The conflict test *)

(** C4. [conflicts_with] is exactly the negation of
    "[A.end <= B.start] or [A.start >= B.end]", for all ranges [A] and [B],
    well formed or not; two ranges that touch at a boundary
    ([A.end = B.start]) do not conflict. *)
Theorem conflicts_with_half_open (a b : ReservationPeriod) :
  (conflicts_with a b = true
   <-> ~ (end_date a <= start_date b \/ start_date a >= end_date b))
  /\ (end_date a = start_date b -> conflicts_with a b = false).
Proof.
  unfold conflicts_with. split.
  - rewrite negb_true_iff, orb_false_iff, Z.leb_gt, Z.geb_leb, Z.leb_gt. lia.
  - intros ->. by rewrite Z.leb_refl.
Qed.

Lemma conflicts_with_half_open_witness :
  conflicts_with (mkPeriod t2030 (t2030 + 3 * US_PER_DAY))
    (mkPeriod (t2030 + 3 * US_PER_DAY) (t2030 + 5 * US_PER_DAY)) = false.
Proof.
  apply (conflicts_with_half_open
           (mkPeriod t2030 (t2030 + 3 * US_PER_DAY))
           (mkPeriod (t2030 + 3 * US_PER_DAY) (t2030 + 5 * US_PER_DAY))).
  reflexivity.
Defined.

(** * Validation in [reserve_car] *)

(** C6. [reserve_car] raises the duration error exactly when [days <= 0],
    whatever the start date (the test on [days] comes first); and for
    [days >= 1] it raises the past-start error exactly when the start is
    strictly before the clock's reading. *)
Theorem reserve_car_validation s clk ct start days :
  (fst (reserve_car ct start days clk s) = Raise InvalidDuration
   <-> days <= 0)
  /\ (1 <= days ->
      (fst (reserve_car ct start days clk s) = Raise PastStartDate
       <-> start < clk)).
Proof.
  rewrite reserve_car_run. split.
  - destruct (decide (days <= 0)); [done|]. split; [|lia].
    destruct (decide (start < clk)); [done|].
    destruct (new_period start days) as [p|e] eqn:Hp.
    + by destruct (List.filter _ _).
    + destruct (new_period_cases start days) as [[_ Hq]|[_ Hq]];
        rewrite Hq in Hp; simplify_eq.
      by destruct (existsb _ _).
  - intros Hd. destruct (decide (days <= 0)); [lia|].
    destruct (decide (start < clk)); [done|]. split; [|lia].
    destruct (new_period start days) as [p|e] eqn:Hp.
    + by destruct (List.filter _ _).
    + destruct (new_period_cases start days) as [[_ Hq]|[_ Hq]];
        rewrite Hq in Hp; simplify_eq.
      by destruct (existsb _ _).
Qed.

Lemma reserve_car_validation_witness :
  fst (reserve_car SUV (t2030 - US_PER_DAY) 3 t2030 test_fleet)
  = Raise PastStartDate.
Proof.
  destruct (reserve_car_validation test_fleet t2030 SUV (t2030 - US_PER_DAY) 3)
    as [_ H].
  apply H; [lia | reflexivity].
Defined.

(** With [days <= 0] the duration error wins over a past start. *)
Lemma reserve_car_duration_checked_first s clk ct start days :
  days <= 0 -> start < clk ->
  reserve_car ct start days clk s = (Raise InvalidDuration, s).
Proof.
  intros Hd _. rewrite reserve_car_run. by destruct (decide (days <= 0)).
Qed.

(** * The three failures of [reserve_car] *)

(** The two validation failures are raised under one exception class and
    differ by their message. *)
Lemma validation_errors_share_class :
  class_of InvalidDuration = class_of PastStartDate
  /\ class_of NoAvailableCars <> class_of InvalidDuration.
Proof. split; done. Qed.

(** C7. The three failures reach the caller of the facade as three values
    that differ pairwise: the duration error, the past-start error and the
    no-cars error. *)
Theorem reserve_car_errors_distinguishable :
  InvalidDuration <> PastStartDate
  /\ InvalidDuration <> NoAvailableCars
  /\ PastStartDate <> NoAvailableCars
  /\ fst (CarRentalSystem.reserve_car SUV t2030 0 t2030
            (CarRentalSystem.mk test_fleet)) = Raise InvalidDuration
  /\ fst (CarRentalSystem.reserve_car SUV (t2030 - US_PER_DAY) 3 t2030
            (CarRentalSystem.mk test_fleet)) = Raise PastStartDate
  /\ fst (CarRentalSystem.reserve_car SUV t2030 3 t2030
            (snd (CarRentalSystem.reserve_car SUV t2030 3 t2030
                    (CarRentalSystem.mk test_fleet)))) = Raise NoAvailableCars.
Proof. repeat split; try done; vm_compute; reflexivity. Qed.

(** * The facade *)

(** C9. Over any inventory, each facade method gives the result or the
    exception of the inventory's method on the same inputs, and leaves the
    facade holding the inventory as that method left it. *)
Theorem facade_delegates {S} `{CarInventory S}
    (sys : CarRentalSystem.t S) clk cid ct start days :
  CarRentalSystem.add_car cid ct clk sys
  = (fst (inv_add_car (mkCar cid ct) clk (CarRentalSystem.inventory sys)),
     CarRentalSystem.mk
       (snd (inv_add_car (mkCar cid ct) clk (CarRentalSystem.inventory sys))))
  /\ CarRentalSystem.reserve_car ct start days clk sys
  = (fst (inv_reserve_car ct start days clk (CarRentalSystem.inventory sys)),
     CarRentalSystem.mk
       (snd (inv_reserve_car ct start days clk
               (CarRentalSystem.inventory sys))))
  /\ CarRentalSystem.check_availability ct start days clk sys
  = (fst (inv_check_availability ct start days clk
            (CarRentalSystem.inventory sys)),
     CarRentalSystem.mk
       (snd (inv_check_availability ct start days clk
               (CarRentalSystem.inventory sys)))).
Proof.
  unfold CarRentalSystem.add_car, CarRentalSystem.reserve_car,
    CarRentalSystem.check_availability, CarRentalSystem.on_inventory.
  repeat split.
  - by destruct (inv_add_car _ _ _).
  - by destruct (inv_reserve_car _ _ _ _ _).
  - by destruct (inv_check_availability _ _ _ _ _).
Qed.

(** The same over the in-memory inventory, method by method. *)
Lemma facade_in_memory (s : InMemoryCarInventory) clk cid ct start days :
  CarRentalSystem.add_car cid ct clk (CarRentalSystem.mk s)
  = (Return tt, CarRentalSystem.mk (snd (add_car (mkCar cid ct) clk s)))
  /\ fst (CarRentalSystem.reserve_car ct start days clk (CarRentalSystem.mk s))
     = fst (reserve_car ct start days clk s)
  /\ fst (CarRentalSystem.check_availability ct start days clk
            (CarRentalSystem.mk s))
     = fst (check_availability ct start days clk s).
Proof.
  unfold CarRentalSystem.add_car, CarRentalSystem.reserve_car,
    CarRentalSystem.check_availability, CarRentalSystem.on_inventory. simpl.
  repeat split.
  - by destruct (reserve_car _ _ _ _ _).
  - by destruct (check_availability _ _ _ _ _).
Qed.

(** * Availability *)

Lemma filter_length_pos_iff {A} (f : A -> bool) (l : list A) :
  (0 <? Z.of_nat (length (List.filter f l))) = true
  <-> exists x, x ∈ l /\ f x = true.
Proof.
  rewrite Z.ltb_lt. split.
  - destruct (List.filter f l) as [|x tl] eqn:Hf; simpl; [lia|]. intros _.
    apply filter_head_first in Hf as (i & Hi & Hfx & _).
    exists x. split; [|done]. apply list_elem_of_lookup. eauto.
  - intros (x & Hx & Hfx).
    destruct (List.filter f l) as [|y tl] eqn:Hf; simpl; [|lia].
    rewrite (proj1 (filter_nil_iff f l) Hf x Hx) in Hfx. done.
Qed.

(** [check_availability] never changes the inventory, on any input. *)
Lemma check_availability_pure ct start days clk s :
  snd (check_availability ct start days clk s) = s.
Proof.
  rewrite check_availability_run.
  destruct (new_period start days); [done|]. by destruct (existsb _ _).
Qed.

(** C8, as the code has it. [check_availability] never changes the
    inventory; it raises nothing but the library's overflow error (no
    validation of [days] or of the start date); its answer does not depend
    on the clock; and whenever the requested range is one the library can
    build, whatever the sign of [days] and wherever the start lies, it
    returns, and returns true exactly when some car of the category has no
    reservation in conflict with the range. *)
Theorem check_availability_correct s clk ct start days :
  snd (check_availability ct start days clk s) = s
  /\ (forall e, fst (check_availability ct start days clk s) = Raise e ->
        e = OverflowError /\ ~ representable start days)
  /\ (forall clk', check_availability ct start days clk' s
                   = check_availability ct start days clk s)
  /\ (representable start days ->
      exists b, fst (check_availability ct start days clk s) = Return b
        /\ (b = true <->
            exists car, car ∈ cars s
              /\ candidate s ct (requested_period start days) car)).
Proof.
  split; [apply check_availability_pure|].
  rewrite !check_availability_run. split; [|split].
  - intros e. destruct (new_period_cases start days) as [[_ Hq]|[Hn Hq]];
      rewrite Hq; [done|].
    destruct (existsb _ _); [|done]. simpl. by intros [= <-].
  - intros clk'. by rewrite check_availability_run.
  - intros Hr. rewrite (new_period_representable _ _ Hr). simpl.
    eexists. split; [done|]. rewrite filter_length_pos_iff.
    by setoid_rewrite candidateb_candidate.
Qed.

Lemma check_availability_correct_witness :
  exists b, fst (check_availability SUV (t2030 - 9 * US_PER_DAY) (-2) t2030
                   test_fleet) = Return b
    /\ (b = true <->
        exists car, car ∈ cars test_fleet
          /\ candidate test_fleet SUV
               (requested_period (t2030 - 9 * US_PER_DAY) (-2)) car).
Proof.
  destruct (check_availability_correct test_fleet t2030 SUV
              (t2030 - 9 * US_PER_DAY) (-2)) as (_ & _ & _ & H).
  apply H. vm_compute. repeat split; discriminate.
Defined.

(** The claim as stated fails where the library cannot build the range: a
    new sedan has no reservation at all, yet a request for 1000000000 days
    makes [check_availability] raise instead of returning true. *)
Lemma check_availability_overflow :
  (exists car, car ∈ cars one_sedan /\ car_type car = SEDAN
     /\ reservations_get one_sedan (car_id car) = [])
  /\ check_availability SEDAN t2030 1000000000 t2030 one_sedan
     = (Raise OverflowError, one_sedan).
Proof.
  split; [|vm_compute; reflexivity].
  exists (mkCar 1 SEDAN). repeat split. apply list_elem_of_here.
Qed.

(** A car with no reservation under its identifier passes the test of the
    comprehension, whatever the range. *)
Lemma fresh_car_candidate s ct p car :
  car_type car = ct -> reservations_get s (car_id car) = [] ->
  candidateb s ct p car = true.
Proof.
  intros Hct Hnil. unfold candidateb, freeb.
  by rewrite Hnil, (bool_decide_eq_true_2 _ Hct).
Qed.

Lemma fresh_car_available s clk ct start days car :
  car ∈ cars s -> car_type car = ct ->
  reservations_get s (car_id car) = [] ->
  representable start days ->
  check_availability ct start days clk s = (Return true, s).
Proof.
  intros Hin Hct Hnil Hr.
  rewrite check_availability_run, (new_period_representable _ _ Hr).
  do 2 f_equal. apply filter_length_pos_iff.
  exists car. split; [done|]. by apply fresh_car_candidate.
Qed.

(** C10, as the code has it. When some car of the category has no
    reservation under its identifier, [check_availability] returns true
    for every request whose range the library can build, with [days <= 0]
    and past start dates included. *)
Theorem check_availability_fresh_car s clk ct start days car :
  car ∈ cars s -> car_type car = ct ->
  reservations_get s (car_id car) = [] ->
  representable start days ->
  check_availability ct start days clk s = (Return true, s).
Proof. apply fresh_car_available. Qed.

Lemma check_availability_fresh_car_witness :
  check_availability VAN (t2030 - 400 * US_PER_DAY) (-5) t2030 test_fleet
  = (Return true, test_fleet).
Proof.
  apply (check_availability_fresh_car test_fleet t2030 VAN
           (t2030 - 400 * US_PER_DAY) (-5) (mkCar 4 VAN)).
  - do 3 apply list_elem_of_further. apply list_elem_of_here.
  - reflexivity.
  - reflexivity.
  - vm_compute. repeat split; discriminate.
Defined.

(** A car just added under an identifier that holds no reservation makes
    its category available. *)
Lemma check_availability_after_add_car s clk clk' cid ct start days :
  reservations_get s cid = [] ->
  representable start days ->
  fst (check_availability ct start days clk'
         (snd (add_car (mkCar cid ct) clk s))) = Return true.
Proof.
  intros Hnil Hr.
  rewrite (fresh_car_available _ _ _ _ _ (mkCar cid ct)); try done.
  simpl. apply elem_of_app. right. apply list_elem_of_here.
Qed.

(** The claim as stated fails on a new car: a request for 1000000000 days
    raises the library's overflow error. *)
Lemma check_availability_fresh_car_overflow :
  mkCar 1 SEDAN ∈ cars one_sedan
  /\ reservations_get one_sedan 1 = []
  /\ snd (add_car (mkCar 1 SEDAN) t2030 InMemoryCarInventory_init) = one_sedan
  /\ fst (check_availability SEDAN t2030 1000000000 t2030 one_sedan)
     = Raise OverflowError.
Proof.
  repeat split; try (vm_compute; reflexivity). apply list_elem_of_here.
Qed.

(** * Reserving *)

(** C2, as the code has it. If [check_availability] returns true for a
    request with [days >= 1] whose start is not before the clock's reading
    at the reservation, then [reserve_car] on the same inventory returns a
    reservation for the requested range. *)
Theorem check_then_reserve s ct start days clk clk' :
  fst (check_availability ct start days clk s) = Return true ->
  1 <= days -> clk' <= start ->
  exists r,
    reserve_car ct start days clk' s
    = (Return r, append_reservation (res_car_id r) r s)
    /\ period r = requested_period start days.
Proof.
  rewrite check_availability_run, reserve_car_run. intros Hc Hd Hs.
  destruct (decide (days <= 0)); [lia|].
  destruct (decide (start < clk')); [lia|].
  destruct (new_period_cases start days) as [[_ Hq]|[_ Hq]];
    rewrite Hq in *.
  - simpl in Hc. injection Hc as Hc.
    destruct (List.filter _ _) as [|car tl]; [done|]. simpl.
    by exists (mkReservation (car_id car) (requested_period start days)).
  - by destruct (existsb _ _).
Qed.

Lemma check_then_reserve_witness :
  exists r,
    reserve_car SUV (t2030 + US_PER_DAY) 3 t2030 test_fleet
    = (Return r, append_reservation (res_car_id r) r test_fleet)
    /\ period r = requested_period (t2030 + US_PER_DAY) 3.
Proof.
  apply (check_then_reserve test_fleet SUV (t2030 + US_PER_DAY) 3 t2030 t2030).
  - reflexivity.
  - lia.
  - unfold US_PER_DAY. lia.
Defined.

(** The claim as stated fails for requests that [reserve_car] rejects and
    [check_availability] does not look at: zero days, and a start in the
    past.  In both cases [check_availability] returns true and leaves the
    inventory as it was, and [reserve_car] raises. *)
Lemma check_true_reserve_raises :
  check_availability SEDAN (t2030 + US_PER_DAY) 0 t2030 one_sedan
  = (Return true, one_sedan)
  /\ reserve_car SEDAN (t2030 + US_PER_DAY) 0 t2030 one_sedan
     = (Raise InvalidDuration, one_sedan)
  /\ check_availability SEDAN (t2030 - US_PER_DAY) 3 t2030 one_sedan
     = (Return true, one_sedan)
  /\ reserve_car SEDAN (t2030 - US_PER_DAY) 3 t2030 one_sedan
     = (Raise PastStartDate, one_sedan).
Proof. repeat split; vm_compute; reflexivity. Qed.

(** C3, as the code has it. For a request with [days >= 1], a start not
    before the clock's reading and a range the library can build:
    [reserve_car] commits to the first car in fleet order that is of the
    category and has no reservation in conflict with the range; when no
    car of the fleet is such a car it raises the no-cars error; and one of
    the two is always the case. *)
Theorem reserve_car_first_fit s clk ct start days :
  1 <= days -> clk <= start -> representable start days ->
  (forall (i : nat) car,
      cars s !! i = Some car ->
      candidate s ct (requested_period start days) car ->
      (forall (j : nat) c, (j < i)%nat -> cars s !! j = Some c ->
         ~ candidate s ct (requested_period start days) c) ->
      reserve_car ct start days clk s
      = (Return (mkReservation (car_id car) (requested_period start days)),
         append_reservation (car_id car)
           (mkReservation (car_id car) (requested_period start days)) s))
  /\ ((forall car, car ∈ cars s ->
         ~ candidate s ct (requested_period start days) car) ->
      reserve_car ct start days clk s = (Raise NoAvailableCars, s))
  /\ ((exists (i : nat) car,
         cars s !! i = Some car
         /\ candidate s ct (requested_period start days) car
         /\ forall (j : nat) c, (j < i)%nat -> cars s !! j = Some c ->
              ~ candidate s ct (requested_period start days) c)
      \/ (forall car, car ∈ cars s ->
            ~ candidate s ct (requested_period start days) car)).
Proof.
  intros Hd Hs Hr. rewrite !reserve_car_run.
  destruct (decide (days <= 0)); [lia|].
  destruct (decide (start < clk)); [lia|].
  rewrite (new_period_representable _ _ Hr).
  split; [|split].
  - intros i car Hi Hcand Hfirst.
    assert (exists tl,
      List.filter (candidateb s ct (requested_period start days)) (cars s)
      = car :: tl) as [tl ->]; [|done].
    apply (first_filter_head _ _ i); [done|by apply candidateb_candidate|].
    intros j c Hj Hc. apply candidateb_not_candidate. by apply (Hfirst j).
  - intros Hnone.
    assert (List.filter (candidateb s ct (requested_period start days))
              (cars s) = []) as ->; [|done].
    apply filter_nil_iff. intros c Hc.
    apply candidateb_not_candidate. by apply Hnone.
  - destruct (List.filter (candidateb s ct (requested_period start days))
                (cars s)) as [|car tl] eqn:Hf.
    + right. intros c Hc. apply candidateb_not_candidate.
      by apply (proj1 (filter_nil_iff _ _) Hf).
    + left. apply filter_head_first in Hf as (i & Hi & Hfx & Hlt).
      exists i, car. split; [done|]. split; [by apply candidateb_candidate|].
      intros j c Hj Hc. apply candidateb_not_candidate. by apply (Hlt j).
Qed.

(** The claim as stated fails where the library cannot build the range:
    the request is valid ([days >= 1], start not in the past) and the only
    sedan is free, yet [reserve_car] neither commits nor raises the no-cars
    error. *)
Lemma reserve_car_first_fit_overflow :
  1 <= 1000000000 /\ t2030 <= t2030
  /\ cars one_sedan !! 0%nat = Some (mkCar 1 SEDAN)
  /\ candidate one_sedan SEDAN (requested_period t2030 1000000000)
       (mkCar 1 SEDAN)
  /\ reserve_car SEDAN t2030 1000000000 t2030 one_sedan
     = (Raise OverflowError, one_sedan)
  /\ OverflowError <> NoAvailableCars.
Proof.
  repeat split; try done.
  intros r Hr. by apply not_elem_of_nil in Hr.
Qed.

Lemma reserve_car_first_fit_witness :
  reserve_car SEDAN (t2030 + US_PER_DAY) 3 t2030
    (append_reservation 1
       (mkReservation 1 (requested_period (t2030 + US_PER_DAY) 3)) test_fleet)
  = (Return (mkReservation 2 (requested_period (t2030 + US_PER_DAY) 3)),
     append_reservation 2
       (mkReservation 2 (requested_period (t2030 + US_PER_DAY) 3))
       (append_reservation 1
          (mkReservation 1 (requested_period (t2030 + US_PER_DAY) 3))
          test_fleet)).
Proof.
  destruct (reserve_car_first_fit
              (append_reservation 1
                 (mkReservation 1 (requested_period (t2030 + US_PER_DAY) 3))
                 test_fleet)
              t2030 SEDAN (t2030 + US_PER_DAY) 3) as (H & _ & _).
  - lia.
  - unfold US_PER_DAY. lia.
  - vm_compute. repeat split; discriminate.
  - apply (H 1%nat (mkCar 2 SEDAN)).
    + reflexivity.
    + split; [reflexivity|]. intros r Hr. vm_compute in Hr.
      by apply not_elem_of_nil in Hr.
    + intros [|j] c Hj Hc; [|lia]. injection Hc as <-. intros [_ Hfree].
      specialize (Hfree
        (mkReservation 1 (requested_period (t2030 + US_PER_DAY) 3))).
      discriminate Hfree. vm_compute. apply list_elem_of_here.
Defined.

(** What appending a reservation does to the ledger: the fleet and every
    other car's list stay, and the car's list gains the reservation at its
    end. *)
Lemma append_reservation_spec cid r s :
  cars (append_reservation cid r s) = cars s
  /\ reservations_get (append_reservation cid r s) cid
     = reservations_get s cid ++ [r]
  /\ forall cid', cid' <> cid ->
       reservations (append_reservation cid r s) !! cid'
       = reservations s !! cid'.
Proof.
  split; [done|]. split.
  - unfold reservations_get at 1, append_reservation. cbn [reservations].
    by rewrite lookup_insert_eq.
  - intros cid' Hne. unfold append_reservation. cbn [reservations].
    by rewrite lookup_insert_ne.
Qed.

(** C5, as the code has it. [reserve_car] either returns a reservation of
    a car of the fleet and of the category for the requested range, having
    appended exactly that reservation to the list held for the car's
    identifier and touched nothing else; or it raises one of the duration
    error, the past-start error, the no-cars error and the library's
    overflow error, and leaves the inventory as it was. *)
Theorem reserve_car_atomic s clk ct start days :
  (exists car r,
      car ∈ cars s /\ car_type car = ct
      /\ r = mkReservation (car_id car) (requested_period start days)
      /\ reserve_car ct start days clk s
         = (Return r,
            {| cars := cars s;
               reservations :=
                 <[car_id car := reservations_get s (car_id car) ++ [r]]>
                   (reservations s) |}))
  \/ (exists e,
        (e = InvalidDuration \/ e = PastStartDate \/ e = NoAvailableCars
         \/ e = OverflowError)
        /\ reserve_car ct start days clk s = (Raise e, s)).
Proof.
  rewrite !reserve_car_run.
  destruct (decide (days <= 0)); [right; eauto|].
  destruct (decide (start < clk)); [right; eauto|].
  destruct (new_period_cases start days) as [[_ Hq]|[_ Hq]]; rewrite Hq.
  - destruct (List.filter _ _) as [|car tl] eqn:Hf; [right; eauto 6|].
    left. apply filter_head_first in Hf as (i & Hi & Hfx & _).
    apply candidateb_candidate in Hfx as [Hct _].
    exists car, (mkReservation (car_id car) (requested_period start days)).
    repeat split; [|done]. apply list_elem_of_lookup. eauto.
  - right. destruct (existsb _ _); eauto 7.
Qed.

(** The claim as stated fails where the library cannot build the range:
    [reserve_car] raises an error that is none of the three, the
    inventory staying as it was. *)
Lemma reserve_car_fourth_error :
  reserve_car SEDAN t2030 1000000000 t2030 one_sedan
  = (Raise OverflowError, one_sedan)
  /\ OverflowError <> InvalidDuration
  /\ OverflowError <> PastStartDate
  /\ OverflowError <> NoAvailableCars.
Proof. repeat split; done. Qed.

(** * No double booking *)

Lemma no_double_booking_init : no_double_booking InMemoryCarInventory_init.
Proof.
  intros cid rs i j ri rj Hl.
  unfold InMemoryCarInventory_init in Hl. cbn [reservations] in Hl.
  by rewrite lookup_empty in Hl.
Qed.

(** Appending a reservation that conflicts with nothing held for the
    identifier keeps the lists free of conflicts. *)
Lemma no_double_booking_append s cid r :
  no_double_booking s ->
  (forall r', r' ∈ reservations_get s cid ->
     conflicts_with (period r) (period r') = false) ->
  no_double_booking (append_reservation cid r s).
Proof.
  intros Hinv Hfree cid0 rs i j ri rj Hl Hij Hi Hj.
  unfold append_reservation in Hl. cbn [reservations] in Hl.
  destruct (decide (cid = cid0)) as [->|Hne].
  - rewrite lookup_insert_eq in Hl. injection Hl as <-.
    assert (Hold : forall (a b : nat) ra rb, a <> b ->
              reservations_get s cid0 !! a = Some ra ->
              reservations_get s cid0 !! b = Some rb ->
              conflicts_with (period ra) (period rb) = false).
    { unfold reservations_get.
      destruct (reservations s !! cid0) as [old|] eqn:Hold; simpl.
      - intros a b ra rb. by apply (Hinv cid0 old).
      - intros a b ra rb _ Ha. done. }
    apply lookup_app_Some in Hi as [Hi|[Hil Hi]];
      apply lookup_app_Some in Hj as [Hj|[Hjl Hj]].
    + by apply (Hold i j).
    + apply list_lookup_singleton_Some in Hj as [_ <-].
      rewrite conflicts_with_sym. apply Hfree.
      apply list_elem_of_lookup. eauto.
    + apply list_lookup_singleton_Some in Hi as [_ <-].
      apply Hfree. apply list_elem_of_lookup. eauto.
    + apply list_lookup_singleton_Some in Hi as [Hi _].
      apply list_lookup_singleton_Some in Hj as [Hj _]. lia.
  - rewrite lookup_insert_ne in Hl; [|done]. by apply (Hinv cid0 rs i j).
Qed.

(** Every call keeps the lists free of conflicts. *)
Lemma no_double_booking_after_call c clk s :
  no_double_booking s -> no_double_booking (after_call c clk s).
Proof.
  intros Hinv. destruct c as [car|ct start days|ct start days]; simpl.
  - intros cid rs i j ri rj Hl. by apply (Hinv cid rs i j).
  - by rewrite check_availability_pure.
  - rewrite reserve_car_run.
    destruct (decide (days <= 0)); [done|].
    destruct (decide (start < clk)); [done|].
    destruct (new_period start days) as [p|e].
    + destruct (List.filter _ _) as [|car tl] eqn:Hf; [done|]. simpl.
      apply filter_head_first in Hf as (i & _ & Hfx & _).
      apply candidateb_candidate in Hfx as [_ Hfree].
      by apply no_double_booking_append.
    + by destruct (existsb _ _).
Qed.

(** C1. In every inventory reachable from a new one by calls of
    [add_car], [check_availability] and [reserve_car], made at any clock
    readings and whether they return or raise, no two reservations held
    for one car identifier conflict. *)
Theorem reachable_no_double_booking s :
  reachable s -> no_double_booking s.
Proof.
  induction 1 as [|s c clk _ IH].
  - apply no_double_booking_init.
  - by apply no_double_booking_after_call.
Qed.

Lemma reachable_no_double_booking_witness :
  no_double_booking
    (after_call (CallReserveCar SUV (t2030 + 5 * US_PER_DAY) 3) t2030
       (after_call (CallReserveCar SUV (t2030 + US_PER_DAY) 3) t2030
          (after_call (CallCheckAvailability SUV (t2030 + US_PER_DAY) 3) t2030
             (after_call (CallAddCar (mkCar 3 SUV)) t2030
                InMemoryCarInventory_init)))).
Proof.
  apply (reachable_no_double_booking _).
  do 4 apply reachable_call. apply reachable_init.
Defined.

(** The inventory of the witness holds two reservations for car 3. *)
Lemma two_bookings_of_car_3 :
  reservations_get
    (after_call (CallReserveCar SUV (t2030 + 5 * US_PER_DAY) 3) t2030
       (after_call (CallReserveCar SUV (t2030 + US_PER_DAY) 3) t2030
          (after_call (CallCheckAvailability SUV (t2030 + US_PER_DAY) 3) t2030
             (after_call (CallAddCar (mkCar 3 SUV)) t2030
                InMemoryCarInventory_init)))) 3
  = [mkReservation 3 (requested_period (t2030 + US_PER_DAY) 3);
     mkReservation 3 (requested_period (t2030 + 5 * US_PER_DAY) 3)].
Proof. vm_compute. reflexivity. Qed.

(** * The scenarios of the test suite *)

(** On the fleet of [setUp]: an SUV request binds car 3; the same request
    again finds no car; a request for a later, disjoint range binds car 3
    again. *)
Example suv_scenario :
  let day := US_PER_DAY in
  let s1 := snd (reserve_car SUV (t2030 + day) 3 t2030 test_fleet) in
  fst (reserve_car SUV (t2030 + day) 3 t2030 test_fleet)
  = Return (mkReservation 3 (mkPeriod (t2030 + day) (t2030 + 4 * day)))
  /\ reserve_car SUV (t2030 + day) 3 t2030 s1 = (Raise NoAvailableCars, s1)
  /\ fst (reserve_car SUV (t2030 + 5 * day) 3 t2030 s1)
     = Return (mkReservation 3 (mkPeriod (t2030 + 5 * day) (t2030 + 8 * day))).
Proof. repeat split; vm_compute; reflexivity. Qed.

(** Two sedan requests for one range bind cars 1 and 2, in that order, and
    a third finds no car. *)
Example sedan_scenario :
  let day := US_PER_DAY in
  let s1 := snd (reserve_car SEDAN (t2030 + day) 3 t2030 test_fleet) in
  let s2 := snd (reserve_car SEDAN (t2030 + day) 3 t2030 s1) in
  fst (reserve_car SEDAN (t2030 + day) 3 t2030 test_fleet)
  = Return (mkReservation 1 (mkPeriod (t2030 + day) (t2030 + 4 * day)))
  /\ fst (reserve_car SEDAN (t2030 + day) 3 t2030 s1)
     = Return (mkReservation 2 (mkPeriod (t2030 + day) (t2030 + 4 * day)))
  /\ fst (reserve_car SEDAN (t2030 + day) 3 t2030 s2) = Raise NoAvailableCars.
Proof. repeat split; vm_compute; reflexivity. Qed.

(** * More on the conflict test *)

(** A range conflicts with itself exactly when it is not empty. *)
Lemma conflicts_with_self p :
  conflicts_with p p = true <-> start_date p < end_date p.
Proof.
  unfold conflicts_with.
  rewrite negb_true_iff, orb_false_iff, Z.leb_gt, Z.geb_leb, Z.leb_gt. lia.
Qed.

Lemma conflicts_with_true_iff a b :
  conflicts_with a b = true
  <-> start_date b < end_date a /\ start_date a < end_date b.
Proof.
  unfold conflicts_with.
  rewrite negb_true_iff, orb_false_iff, Z.leb_gt, Z.geb_leb, Z.leb_gt. lia.
Qed.

(** X1. The conflict test does not depend on which range asks: [A]
    conflicts with [B] exactly when [B] conflicts with [A]. *)
Theorem conflicts_with_symmetric a b :
  conflicts_with a b = conflicts_with b a.
Proof. apply conflicts_with_sym. Qed.

(** X2. For two ranges that are not empty, [conflicts_with] is true
    exactly when the half-open ranges share an instant. *)
Theorem conflicts_with_share_instant a b :
  start_date a < end_date a -> start_date b < end_date b ->
  (conflicts_with a b = true <-> share_instant a b).
Proof.
  intros Ha Hb. rewrite conflicts_with_true_iff. unfold share_instant. split.
  - intros [H1 H2]. exists (Z.max (start_date a) (start_date b)). lia.
  - intros (t & H1 & H2). lia.
Qed.

Lemma conflicts_with_share_instant_witness :
  conflicts_with (mkPeriod t2030 (t2030 + 3 * US_PER_DAY))
    (mkPeriod (t2030 + 2 * US_PER_DAY) (t2030 + 5 * US_PER_DAY)) = true
  <-> share_instant (mkPeriod t2030 (t2030 + 3 * US_PER_DAY))
        (mkPeriod (t2030 + 2 * US_PER_DAY) (t2030 + 5 * US_PER_DAY)).
Proof.
  apply (conflicts_with_share_instant
           (mkPeriod t2030 (t2030 + 3 * US_PER_DAY))
           (mkPeriod (t2030 + 2 * US_PER_DAY) (t2030 + 5 * US_PER_DAY)));
    reflexivity.
Defined.

(** X3. The helper [_is_period_conflicting], which no method calls, gives
    on every reservation the answer [conflicts_with] gives for the range
    [[start, end)], so a scan of a list with either test finds a conflict
    in the same cases. *)
Theorem is_period_conflicting_agrees start end_ (rs : list Reservation) :
  (forall res,
     _is_period_conflicting start end_ res
     = conflicts_with (mkPeriod start end_) (period res))
  /\ existsb (_is_period_conflicting start end_) rs
     = existsb (fun res => conflicts_with (mkPeriod start end_) (period res))
         rs.
Proof.
  split; [apply _is_period_conflicting_conflicts_with|].
  induction rs as [|r rs IH]; [done|]. simpl.
  by rewrite IH, _is_period_conflicting_conflicts_with.
Qed.

(** * More on [is_car_reserved] and [check_availability] *)

Lemma existsb_elem_of {A} (f : A -> bool) (l : list A) :
  existsb f l = true <-> exists x, x ∈ l /\ f x = true.
Proof.
  rewrite existsb_exists. by setoid_rewrite list_elem_of_In.
Qed.

Lemma existsb_type_has_car_of s ct :
  existsb (fun car => bool_decide (car_type car = ct)) (cars s) = true
  <-> has_car_of s ct.
Proof.
  rewrite existsb_elem_of. unfold has_car_of.
  by setoid_rewrite bool_decide_eq_true.
Qed.

Lemma existsb_type_no_car_of s ct :
  existsb (fun car => bool_decide (car_type car = ct)) (cars s) = false
  <-> ~ has_car_of s ct.
Proof.
  rewrite <- existsb_type_has_car_of. by destruct (existsb _ _).
Qed.

(** X4. [is_car_reserved] never changes the inventory and does not look
    the car up in the fleet.  When the library can build the range it
    returns true exactly when a reservation held under the identifier
    conflicts with the range, so false for an identifier the dict does not
    hold; when the library cannot, it raises the overflow error, whatever
    the identifier. *)
Theorem is_car_reserved_correct s clk cid start days :
  snd (is_car_reserved cid start days clk s) = s
  /\ (representable start days ->
      exists b, fst (is_car_reserved cid start days clk s) = Return b
        /\ (b = true <->
            exists r, r ∈ reservations_get s cid
              /\ conflicts_with (requested_period start days) (period r)
                 = true)
        /\ (reservations s !! cid = None -> b = false))
  /\ (~ representable start days ->
      fst (is_car_reserved cid start days clk s) = Raise OverflowError).
Proof.
  rewrite !is_car_reserved_run. split; [|split].
  - by destruct (new_period start days).
  - intros Hr. rewrite (new_period_representable _ _ Hr). simpl.
    eexists. split; [done|]. split; [apply existsb_elem_of|].
    intros Hnone. unfold reservations_get. by rewrite Hnone.
  - intros Hn. by rewrite (new_period_not_representable _ _ Hn).
Qed.

Lemma is_car_reserved_correct_witness :
  exists b, fst (is_car_reserved 77 (t2030 + US_PER_DAY) 3 t2030 test_fleet)
            = Return b
    /\ (b = true <->
        exists r, r ∈ reservations_get test_fleet 77
          /\ conflicts_with (requested_period (t2030 + US_PER_DAY) 3)
               (period r) = true)
    /\ (reservations test_fleet !! 77 = None -> b = false).
Proof.
  destruct (is_car_reserved_correct test_fleet t2030 77
              (t2030 + US_PER_DAY) 3) as (_ & H & _).
  apply H. vm_compute. repeat split; discriminate.
Defined.

(** X5. What [check_availability] does at the edges: with no car of the
    category in the fleet it returns false on every input, also for a
    range the library cannot build; it raises, and then the overflow
    error, exactly when the fleet has a car of the category and the
    library cannot build the range. *)
Theorem check_availability_edges s clk ct start days :
  (~ has_car_of s ct ->
   check_availability ct start days clk s = (Return false, s))
  /\ (forall e,
        fst (check_availability ct start days clk s) = Raise e
        <-> e = OverflowError /\ has_car_of s ct
            /\ ~ representable start days).
Proof.
  rewrite !check_availability_run. split.
  - intros Hno.
    destruct (new_period start days) as [p|e].
    + assert (List.filter (candidateb s ct p) (cars s) = []) as ->; [|done].
      apply filter_nil_iff. intros car Hcar.
      apply candidateb_not_candidate. intros [Hct _].
      apply Hno. by exists car.
    + by rewrite (proj2 (existsb_type_no_car_of s ct) Hno).
  - intros e.
    destruct (new_period_cases start days) as [[Hr Hq]|[Hn Hq]]; rewrite Hq.
    + simpl. split; [done|]. by intros (_ & _ & Hn).
    + destruct (existsb _ _) eqn:Hex; simpl.
      * apply existsb_type_has_car_of in Hex. split.
        -- by intros [= <-].
        -- by intros [-> _].
      * apply existsb_type_no_car_of in Hex. split; [done|].
        by intros (_ & Hcar & _).
Qed.

Lemma check_availability_edges_witness :
  check_availability VAN t2030 1000000000 t2030 one_sedan
  = (Return false, one_sedan).
Proof.
  destruct (check_availability_edges one_sedan t2030 VAN t2030 1000000000)
    as [H _].
  apply H. intros (car & Hcar & Hct).
  apply list_elem_of_singleton in Hcar. subst car. discriminate Hct.
Defined.

(** * More on [reserve_car] *)

Lemma filter_candidates_nil s ct p :
  List.filter (candidateb s ct p) (cars s) = []
  <-> forall car, car ∈ cars s -> ~ candidate s ct p car.
Proof.
  rewrite filter_nil_iff. by setoid_rewrite candidateb_not_candidate.
Qed.

Lemma filter_candidates_cons s ct p :
  (exists car tl, List.filter (candidateb s ct p) (cars s) = car :: tl)
  <-> exists car, car ∈ cars s /\ candidate s ct p car.
Proof.
  split.
  - intros (car & tl & Hf).
    apply filter_head_first in Hf as (i & Hi & Hfx & _).
    exists car. split; [|by apply candidateb_candidate].
    apply list_elem_of_lookup. eauto.
  - intros (car & Hcar & Hc).
    destruct (List.filter (candidateb s ct p) (cars s)) as [|c tl] eqn:Hf;
      [|eauto].
    by destruct (proj1 (filter_candidates_nil s ct p) Hf car Hcar).
Qed.

Lemma candidate_has_car_of s ct p car :
  car ∈ cars s -> candidate s ct p car -> has_car_of s ct.
Proof. intros Hcar [Hct _]. by exists car. Qed.

(** What a returned reservation tells about the call. *)
Lemma reserve_car_Return_inv ct start days clk s r s' :
  reserve_car ct start days clk s = (Return r, s') ->
  1 <= days /\ clk <= start /\ representable start days
  /\ exists car tl,
       List.filter (candidateb s ct (requested_period start days)) (cars s)
       = car :: tl
       /\ r = mkReservation (car_id car) (requested_period start days)
       /\ s' = append_reservation (car_id car) r s.
Proof.
  rewrite reserve_car_run.
  destruct (decide (days <= 0)); [done|].
  destruct (decide (start < clk)); [done|].
  destruct (new_period_cases start days) as [[Hr Hq]|[Hn Hq]]; rewrite Hq.
  - destruct (List.filter _ _) as [|car tl] eqn:Hf; [done|].
    intros [= <- <-]. repeat split; try lia; try apply Hr. eauto.
  - by destruct (existsb _ _).
Qed.

(** X6. The outcomes of [reserve_car], case by case.  It returns a
    reservation exactly when the request has [days >= 1], a start not
    before the clock's reading and a range the library can build, and some
    car of the fleet is of the category and free over the range.  It
    raises the no-cars error exactly when the request passes the two
    validations and either no car of the fleet is of the category or the
    range can be built and no car of the category is free over it.  It
    raises the overflow error exactly when the request passes the two
    validations, the fleet has a car of the category and the range cannot
    be built. *)
Theorem reserve_car_outcomes s clk ct start days :
  ((exists r, fst (reserve_car ct start days clk s) = Return r)
   <-> 1 <= days /\ clk <= start /\ representable start days
       /\ exists car, car ∈ cars s
            /\ candidate s ct (requested_period start days) car)
  /\ (fst (reserve_car ct start days clk s) = Raise NoAvailableCars
      <-> 1 <= days /\ clk <= start
          /\ (~ has_car_of s ct
              \/ (representable start days
                  /\ forall car, car ∈ cars s ->
                       ~ candidate s ct (requested_period start days) car)))
  /\ (fst (reserve_car ct start days clk s) = Raise OverflowError
      <-> 1 <= days /\ clk <= start /\ has_car_of s ct
          /\ ~ representable start days).
Proof.
  rewrite !reserve_car_run.
  unfold InvalidDuration, PastStartDate, NoAvailableCars.
  destruct (decide (days <= 0)).
  { simpl. repeat split; try done;
      try (match goal with H : exists _, _ |- _ => by destruct H end);
      intros (? & _); lia. }
  destruct (decide (start < clk)).
  { simpl. repeat split; try done;
      try (match goal with H : exists _, _ |- _ => by destruct H end);
      intros (_ & ? & _); lia. }
  destruct (new_period_cases start days) as [[Hr Hq]|[Hn Hq]]; rewrite Hq.
  - destruct (List.filter _ _) as [|car tl] eqn:Hf; simpl.
    + pose proof (proj1 (filter_candidates_nil _ _ _) Hf) as Hnone.
      split; [|split].
      * split; [by intros [r ?]|].
        intros (_ & _ & _ & car & Hcar & Hc). by destruct (Hnone car Hcar).
      * split; [|done]. intros _. repeat split; [lia..|]. by right.
      * split; [done|]. by intros (_ & _ & _ & ?).
    + assert (exists car, car ∈ cars s
                /\ candidate s ct (requested_period start days) car)
        as (c & Hc & Hcand).
      { apply filter_candidates_cons. eauto. }
      split; [|split].
      * split.
        -- intros _. split; [lia|]. split; [lia|]. split; [done|].
           by exists c.
        -- intros _. by eexists.
      * split; [done|]. intros (_ & _ & [Hno|[_ Hnone]]).
        -- destruct Hno. by eapply candidate_has_car_of.
        -- by destruct (Hnone c Hc).
      * split; [done|]. by intros (_ & _ & _ & ?).
  - destruct (existsb _ _) eqn:Hex; simpl.
    + apply existsb_type_has_car_of in Hex. split; [|split].
      * split; [by intros [r ?]|]. by intros (_ & _ & ? & _).
      * split; [done|]. intros (_ & _ & [Hno|[? _]]); done.
      * split; [|done]. intros _. repeat split; [lia..|done|done].
    + apply existsb_type_no_car_of in Hex. split; [|split].
      * split; [by intros [r ?]|]. by intros (_ & _ & ? & _).
      * split; [|done]. intros _. repeat split; [lia..|]. by left.
      * split; [done|]. by intros (_ & _ & ? & _).
Qed.

(** X7. For a request that passes the validations of [reserve_car]
    ([days >= 1], start not before the clock's reading), the two methods
    agree on the same inventory, whatever the clock reads when
    [check_availability] is called: [reserve_car] returns a reservation
    exactly when [check_availability] returns true, raises the no-cars
    error exactly when it returns false, and raises the overflow error
    exactly when it does. *)
Theorem reserve_car_agrees_with_check s clk clk' ct start days :
  1 <= days -> clk <= start ->
  ((exists r, fst (reserve_car ct start days clk s) = Return r)
   <-> fst (check_availability ct start days clk' s) = Return true)
  /\ (fst (reserve_car ct start days clk s) = Raise NoAvailableCars
      <-> fst (check_availability ct start days clk' s) = Return false)
  /\ (fst (reserve_car ct start days clk s) = Raise OverflowError
      <-> fst (check_availability ct start days clk' s)
          = Raise OverflowError).
Proof.
  intros Hd Hs. rewrite !reserve_car_run, !check_availability_run.
  unfold NoAvailableCars.
  destruct (decide (days <= 0)); [lia|].
  destruct (decide (start < clk)); [lia|].
  destruct (new_period start days) as [p|e] eqn:Hp.
  - destruct (List.filter _ _) as [|car tl]; simpl.
    + repeat split; try done. by intros [r ?].
    + repeat split; try done. intros _. by eexists.
  - destruct (new_period_cases start days) as [[_ Hq]|[_ Hq]];
      rewrite Hq in Hp; simplify_eq.
    destruct (existsb _ _); simpl; repeat split; try done; by intros [r ?].
Qed.

Lemma reserve_car_agrees_with_check_witness :
  ((exists r, fst (reserve_car SUV (t2030 + US_PER_DAY) 3 t2030 test_fleet)
              = Return r)
   <-> fst (check_availability SUV (t2030 + US_PER_DAY) 3 (t2030 - 5)
              test_fleet) = Return true)
  /\ (fst (reserve_car SUV (t2030 + US_PER_DAY) 3 t2030 test_fleet)
      = Raise NoAvailableCars
      <-> fst (check_availability SUV (t2030 + US_PER_DAY) 3 (t2030 - 5)
                 test_fleet) = Return false)
  /\ (fst (reserve_car SUV (t2030 + US_PER_DAY) 3 t2030 test_fleet)
      = Raise OverflowError
      <-> fst (check_availability SUV (t2030 + US_PER_DAY) 3 (t2030 - 5)
                 test_fleet) = Raise OverflowError).
Proof.
  apply (reserve_car_agrees_with_check test_fleet t2030 (t2030 - 5) SUV
           (t2030 + US_PER_DAY) 3).
  - lia.
  - unfold US_PER_DAY. lia.
Defined.

(** * What a booking does to later requests *)

Lemma reservations_get_append cid r s cid' :
  reservations_get (append_reservation cid r s) cid'
  = if decide (cid' = cid) then reservations_get s cid ++ [r]
    else reservations_get s cid'.
Proof.
  destruct (append_reservation_spec cid r s) as (_ & Hsame & Hother).
  destruct (decide (cid' = cid)) as [->|Hne]; [done|].
  unfold reservations_get. by rewrite Hother.
Qed.

Lemma freeb_append cid r s p car :
  freeb (append_reservation cid r s) p car
  = freeb s p car
    && negb (bool_decide (car_id car = cid) && conflicts_with p (period r)).
Proof.
  unfold freeb. rewrite reservations_get_append.
  destruct (decide (car_id car = cid)) as [Heq|Hne].
  - rewrite (bool_decide_eq_true_2 _ Heq), Heq, existsb_app. simpl.
    rewrite orb_false_r, negb_orb. done.
  - rewrite (bool_decide_eq_false_2 _ Hne). simpl. by rewrite andb_true_r.
Qed.

Lemma car_free_append cid r s p car :
  car_free (append_reservation cid r s) p car
  <-> car_free s p car
      /\ (car_id car = cid -> conflicts_with p (period r) = false).
Proof.
  rewrite <- !freeb_car_free, freeb_append, andb_true_iff, negb_true_iff,
    andb_false_iff, bool_decide_eq_false.
  split; intros [Hf Hc]; (split; [done|]).
  - intros Heq. by destruct Hc.
  - destruct (decide (car_id car = cid)); [right|left]; auto.
Qed.

Lemma candidateb_append_same_period cid r s ct car :
  start_date (period r) < end_date (period r) ->
  candidateb (append_reservation cid r s) ct (period r) car
  = candidateb s ct (period r) car && negb (bool_decide (car_id car = cid)).
Proof.
  intros Hne. unfold candidateb. rewrite freeb_append.
  rewrite (proj2 (conflicts_with_self (period r)) Hne), andb_true_r.
  by rewrite andb_assoc.
Qed.

Lemma requested_period_not_empty start days :
  1 <= days ->
  start_date (requested_period start days)
  < end_date (requested_period start days).
Proof. unfold requested_period, US_PER_DAY. simpl. lia. Qed.

(** X8. After [reserve_car] has returned a reservation, the fleet is the
    same and a car is free over a range exactly when it was free over it
    before and, if it carries the booked identifier, the range does not
    conflict with the booked one: a booking takes nothing from the cars of
    other identifiers and nothing but the conflicting ranges from its
    own. *)
Theorem booking_blocks_only_conflicts ct start days clk s r s' :
  reserve_car ct start days clk s = (Return r, s') ->
  cars s' = cars s
  /\ forall p car,
       car_free s' p car
       <-> car_free s p car
           /\ (car_id car = res_car_id r
               -> conflicts_with p (period r) = false).
Proof.
  intros (_ & _ & _ & c & tl & _ & -> & ->)%reserve_car_Return_inv.
  split; [done|]. intros p car. apply car_free_append.
Qed.

Lemma booking_blocks_only_conflicts_witness :
  cars (snd (reserve_car SUV (t2030 + US_PER_DAY) 3 t2030 test_fleet))
  = cars test_fleet
  /\ forall p car,
       car_free (snd (reserve_car SUV (t2030 + US_PER_DAY) 3 t2030 test_fleet))
         p car
       <-> car_free test_fleet p car
           /\ (car_id car
               = res_car_id
                   (mkReservation 3 (requested_period (t2030 + US_PER_DAY) 3))
               -> conflicts_with p
                    (period
                       (mkReservation 3
                          (requested_period (t2030 + US_PER_DAY) 3)))
                  = false).
Proof.
  apply (booking_blocks_only_conflicts SUV (t2030 + US_PER_DAY) 3 t2030
           test_fleet).
  vm_compute. reflexivity.
Defined.

(** X9. After [reserve_car] has returned a reservation, the cars the same
    request can take are the cars it could take before, less those that
    carry the booked identifier. *)
Theorem booking_takes_its_identifier ct start days clk s r s' :
  reserve_car ct start days clk s = (Return r, s') ->
  forall car,
    candidate s' ct (requested_period start days) car
    <-> candidate s ct (requested_period start days) car
        /\ car_id car <> res_car_id r.
Proof.
  intros (Hd & _ & _ & c & tl & _ & -> & ->)%reserve_car_Return_inv car.
  rewrite <- !candidateb_candidate.
  pose proof (candidateb_append_same_period (car_id c)
    (mkReservation (car_id c) (requested_period start days)) s ct car
    (requested_period_not_empty start days Hd)) as Heq.
  simpl in Heq. rewrite Heq, andb_true_iff, negb_true_iff.
  by rewrite bool_decide_eq_false.
Qed.

Lemma booking_takes_its_identifier_witness :
  candidate (snd (reserve_car SEDAN (t2030 + US_PER_DAY) 3 t2030 test_fleet))
    SEDAN (requested_period (t2030 + US_PER_DAY) 3) (mkCar 2 SEDAN)
  <-> candidate test_fleet SEDAN (requested_period (t2030 + US_PER_DAY) 3)
        (mkCar 2 SEDAN)
      /\ car_id (mkCar 2 SEDAN)
         <> res_car_id
              (mkReservation 1 (requested_period (t2030 + US_PER_DAY) 3)).
Proof.
  apply (booking_takes_its_identifier SEDAN (t2030 + US_PER_DAY) 3 t2030
           test_fleet
           (mkReservation 1 (requested_period (t2030 + US_PER_DAY) 3))
           (snd (reserve_car SEDAN (t2030 + US_PER_DAY) 3 t2030 test_fleet))).
  vm_compute. reflexivity.
Defined.

(** X10. Exhaustion.  When [reserve_car] has returned a reservation and
    every car the request could take carried the booked identifier (the
    booked car was the last free one), the same request made again, at a
    reading not after its start, raises the no-cars error and changes
    nothing, and [check_availability] returns false for it. *)
Theorem reserve_car_exhausts ct start days clk clk' clk'' s r s' :
  reserve_car ct start days clk s = (Return r, s') ->
  (forall car, car ∈ cars s ->
     candidate s ct (requested_period start days) car ->
     car_id car = res_car_id r) ->
  clk' <= start ->
  reserve_car ct start days clk' s' = (Raise NoAvailableCars, s')
  /\ check_availability ct start days clk'' s' = (Return false, s').
Proof.
  intros Hres Hlast Hclk.
  pose proof Hres as
    (Hd & _ & Hr & c & tl & _ & -> & ->)%reserve_car_Return_inv.
  assert (List.filter
            (candidateb
               (append_reservation (car_id c)
                  (mkReservation (car_id c) (requested_period start days)) s)
               ct (requested_period start days))
            (cars s) = []) as Hnil.
  { apply filter_nil_iff. intros car Hcar.
    pose proof (candidateb_append_same_period (car_id c)
      (mkReservation (car_id c) (requested_period start days)) s ct car
      (requested_period_not_empty start days Hd)) as Heq.
    simpl in Heq. rewrite Heq.
    destruct (candidateb s ct (requested_period start days) car) eqn:Hc;
      [|done].
    apply candidateb_candidate in Hc.
    by rewrite (bool_decide_eq_true_2 _ (Hlast car Hcar Hc)). }
  rewrite reserve_car_run, check_availability_run.
  destruct (decide (days <= 0)); [lia|].
  destruct (decide (start < clk')); [lia|].
  rewrite (new_period_representable _ _ Hr).
  change (cars (append_reservation _ _ s)) with (cars s).
  by rewrite Hnil.
Qed.

Lemma reserve_car_exhausts_witness :
  reserve_car VAN (t2030 + US_PER_DAY) 3 (t2030 + 7)
    (snd (reserve_car VAN (t2030 + US_PER_DAY) 3 t2030 test_fleet))
  = (Raise NoAvailableCars,
     snd (reserve_car VAN (t2030 + US_PER_DAY) 3 t2030 test_fleet))
  /\ check_availability VAN (t2030 + US_PER_DAY) 3 (t2030 + 9)
       (snd (reserve_car VAN (t2030 + US_PER_DAY) 3 t2030 test_fleet))
     = (Return false,
        snd (reserve_car VAN (t2030 + US_PER_DAY) 3 t2030 test_fleet)).
Proof.
  apply (reserve_car_exhausts VAN (t2030 + US_PER_DAY) 3 t2030 (t2030 + 7)
           (t2030 + 9) test_fleet
           (mkReservation 4 (requested_period (t2030 + US_PER_DAY) 3))).
  - vm_compute. reflexivity.
  - intros car Hcar [Hct _]. simpl in Hcar.
    repeat (apply elem_of_cons in Hcar as [->|Hcar]; [by try discriminate Hct|]).
    by apply not_elem_of_nil in Hcar.
  - unfold US_PER_DAY. lia.
Defined.

Lemma candidateb_append_no_conflict cid r s ct p car :
  conflicts_with p (period r) = false ->
  candidateb (append_reservation cid r s) ct p car = candidateb s ct p car.
Proof.
  intros Hc. unfold candidateb.
  by rewrite freeb_append, Hc, andb_false_r, andb_true_r.
Qed.

(** X11. A booking does not touch requests for ranges it does not
    conflict with, back-to-back ranges included: after [reserve_car] has
    returned a reservation, [reserve_car] and [check_availability] give,
    for any category and any request whose range does not conflict with
    the booked one, the outcome they gave before the booking. *)
Theorem booking_leaves_other_ranges ct start days clk s r s'
    ct2 start2 days2 clk2 :
  reserve_car ct start days clk s = (Return r, s') ->
  conflicts_with (requested_period start2 days2) (period r) = false ->
  fst (reserve_car ct2 start2 days2 clk2 s')
  = fst (reserve_car ct2 start2 days2 clk2 s)
  /\ fst (check_availability ct2 start2 days2 clk2 s')
     = fst (check_availability ct2 start2 days2 clk2 s).
Proof.
  intros (_ & _ & _ & c & tl & _ & -> & ->)%reserve_car_Return_inv Hc.
  rewrite !reserve_car_run, !check_availability_run.
  change (cars (append_reservation _ _ s)) with (cars s).
  destruct (new_period_cases start2 days2) as [[_ Hq]|[_ Hq]]; rewrite Hq.
  - rewrite (List.filter_ext _ (candidateb s ct2 (requested_period start2 days2)));
      [|intros car; by apply candidateb_append_no_conflict].
    destruct (decide (days2 <= 0)); [done|].
    destruct (decide (start2 < clk2)); [done|].
    by destruct (List.filter _ _).
  - destruct (decide (days2 <= 0)); [|destruct (decide (start2 < clk2))];
      by destruct (existsb _ _).
Qed.

Lemma booking_leaves_other_ranges_witness :
  fst (reserve_car SUV (t2030 + 4 * US_PER_DAY) 2 t2030
         (snd (reserve_car SUV (t2030 + US_PER_DAY) 3 t2030 test_fleet)))
  = fst (reserve_car SUV (t2030 + 4 * US_PER_DAY) 2 t2030 test_fleet)
  /\ fst (check_availability SUV (t2030 + 4 * US_PER_DAY) 2 t2030
            (snd (reserve_car SUV (t2030 + US_PER_DAY) 3 t2030 test_fleet)))
     = fst (check_availability SUV (t2030 + 4 * US_PER_DAY) 2 t2030
              test_fleet).
Proof.
  apply (booking_leaves_other_ranges SUV (t2030 + US_PER_DAY) 3 t2030
           test_fleet
           (mkReservation 3 (requested_period (t2030 + US_PER_DAY) 3))).
  - vm_compute. reflexivity.
  - reflexivity.
Defined.

(** * Repeating one request *)

Lemma filter_filter {A} (f g : A -> bool) (l : list A) :
  List.filter f (List.filter g l) = List.filter (fun x => g x && f x) l.
Proof.
  induction l as [|a l IH]; [done|]. simpl.
  destruct (g a); simpl; [|done]. destruct (f a); by rewrite IH.
Qed.

Lemma filter_elem_of {A} (f : A -> bool) (l : list A) x :
  x ∈ List.filter f l -> x ∈ l.
Proof.
  rewrite !list_elem_of_In, filter_In. by intros [? _].
Qed.

(** With identifiers that do not repeat, no car after the head of a
    filtered fleet carries the head's identifier. *)
Lemma filter_head_identifier (f : Car -> bool) (l : list Car) c tl :
  NoDup (car_id <$> l) -> List.filter f l = c :: tl ->
  forall car, car ∈ tl -> car_id car <> car_id c.
Proof.
  induction l as [|a l IH]; [done|]. simpl.
  intros [Hnotin Hnd]%NoDup_cons. destruct (f a).
  - intros [= -> <-] car Hcar Heq. apply Hnotin. rewrite <- Heq.
    apply list_elem_of_fmap. exists car. split; [done|].
    by apply filter_elem_of in Hcar.
  - by apply IH.
Qed.

Lemma filter_all {A} (f : A -> bool) (l : list A) :
  (forall x, x ∈ l -> f x = true) -> List.filter f l = l.
Proof.
  induction l as [|a l IH]; [done|]. intros Hall. simpl.
  rewrite (Hall a); [|left]. f_equal. apply IH. intros x Hx. apply Hall.
  by right.
Qed.

(** With identifiers that do not repeat, a booking removes the head of
    the list of cars the request can take and nothing else. *)
Lemma available_after_booking s ct start days c tl :
  1 <= days ->
  NoDup (car_id <$> cars s) ->
  List.filter (candidateb s ct (requested_period start days)) (cars s)
  = c :: tl ->
  List.filter
    (candidateb
       (append_reservation (car_id c)
          (mkReservation (car_id c) (requested_period start days)) s)
       ct (requested_period start days))
    (cars s) = tl.
Proof.
  intros Hd Hnd Hf.
  rewrite (List.filter_ext _
    (fun car => candidateb s ct (requested_period start days) car
                && negb (bool_decide (car_id car = car_id c)))).
  2:{ intros car.
      apply (candidateb_append_same_period (car_id c)
               (mkReservation (car_id c) (requested_period start days))).
      by apply requested_period_not_empty. }
  rewrite <- filter_filter, Hf. simpl.
  rewrite (bool_decide_eq_true_2 _ eq_refl). simpl.
  apply filter_all. intros car Hcar.
  apply negb_true_iff, bool_decide_eq_false.
  by apply (filter_head_identifier _ _ _ _ Hnd Hf).
Qed.

Lemma reserve_each_run ct start days clks : forall s avail,
  1 <= days -> representable start days ->
  (forall clk, clk ∈ clks -> clk <= start) ->
  NoDup (car_id <$> cars s) ->
  List.filter (candidateb s ct (requested_period start days)) (cars s)
  = avail ->
  fst (reserve_each ct start days clks s)
  = if decide (length clks <= length avail)%nat
    then Return ((fun car =>
                    mkReservation (car_id car) (requested_period start days))
                 <$> take (length clks) avail)
    else Raise NoAvailableCars.
Proof.
  induction clks as [|clk rest IH]; intros s avail Hd Hr Hclk Hnd Hav.
  { simpl. try case_decide; done || lia. }
  simpl. rewrite reserve_car_run.
  destruct (decide (days <= 0)); [lia|].
  destruct (decide (start < clk)) as [Hlt|_].
  { assert (clk <= start) by (apply Hclk; left). lia. }
  rewrite (new_period_representable _ _ Hr), Hav.
  destruct avail as [|c tl].
  { simpl. try case_decide; done || lia. }
  cbn zeta.
  assert (forall k, k ∈ rest -> k <= start) as Hrest.
  { intros k Hk. apply Hclk. by right. }
  specialize (IH
    (append_reservation (car_id c)
       (mkReservation (car_id c) (requested_period start days)) s) tl Hd Hr
    Hrest Hnd (available_after_booking s ct start days c tl Hd Hnd Hav)).
  cbv beta iota zeta.
  destruct (reserve_each _ _ _ rest _) as [[rs|e] s'']; simpl in *.
  - destruct (decide (length rest <= length tl)%nat);
      destruct (decide (S (length rest) <= S (length tl))%nat);
      try lia; try done.
    by injection IH as ->.
  - destruct (decide (length rest <= length tl)%nat);
      destruct (decide (S (length rest) <= S (length tl))%nat);
      try lia; try done.
Qed.

(** X12. Repeating one request, as the loop of
    [test_large_number_of_reservations] does.  In a fleet whose
    identifiers do not repeat, for a request with [days >= 1], a range the
    library can build and a start not before any of the clock readings:
    if the comprehension finds the cars [avail] for the request, then [n]
    calls in a row, [n] at most the length of [avail], return
    reservations of the first [n] cars of [avail], in fleet order, each
    for the requested range; more calls than that end in the no-cars
    error. *)
Theorem reserve_each_first_fit s ct start days clk0 clks avail :
  1 <= days -> representable start days ->
  (forall clk, clk ∈ clks -> clk <= start) ->
  NoDup (car_id <$> cars s) ->
  available_cars ct start days clk0 s = (Return avail, s) ->
  ((length clks <= length avail)%nat ->
   fst (reserve_each ct start days clks s)
   = Return ((fun car =>
                mkReservation (car_id car) (requested_period start days))
             <$> take (length clks) avail))
  /\ ((length avail < length clks)%nat ->
      fst (reserve_each ct start days clks s) = Raise NoAvailableCars).
Proof.
  intros Hd Hr Hclk Hnd Hav.
  unfold available_cars, bind, gets in Hav.
  rewrite (available_among_Return _ _ _ _ _ _ _
             (new_period_representable _ _ Hr)) in Hav.
  injection Hav as Hav.
  rewrite (reserve_each_run ct start days clks s avail Hd Hr Hclk Hnd Hav).
  split; intros Hlen; case_decide; done || lia.
Qed.

Lemma reserve_each_first_fit_witness :
  fst (reserve_each SEDAN (t2030 + US_PER_DAY) 3 [t2030; t2030 + 1]
         test_fleet)
  = Return ((fun car =>
               mkReservation (car_id car)
                 (requested_period (t2030 + US_PER_DAY) 3))
            <$> take (length [t2030; t2030 + 1])
                  [mkCar 1 SEDAN; mkCar 2 SEDAN]).
Proof.
  destruct (reserve_each_first_fit test_fleet SEDAN (t2030 + US_PER_DAY) 3
              t2030 [t2030; t2030 + 1] [mkCar 1 SEDAN; mkCar 2 SEDAN])
    as [H _].
  - lia.
  - vm_compute. repeat split; discriminate.
  - intros clk Hclk.
    repeat (apply elem_of_cons in Hclk as [->|Hclk];
            [unfold t2030, US_PER_DAY; lia|]).
    by apply not_elem_of_nil in Hclk.
  - apply (bool_decide_unpack _). by vm_compute.
  - vm_compute. reflexivity.
  - apply H. simpl. lia.
Defined.

(** * Adding a car *)

Lemma add_car_run car clk s :
  add_car car clk s
  = (Return tt, {| cars := cars s ++ [car]; reservations := reservations s |}).
Proof. done. Qed.

Lemma candidateb_add_car car clk s ct p c :
  candidateb (snd (add_car car clk s)) ct p c = candidateb s ct p c.
Proof. done. Qed.

Lemma filter_candidates_add_car car clk s ct p :
  List.filter (candidateb (snd (add_car car clk s)) ct p)
    (cars (snd (add_car car clk s)))
  = List.filter (candidateb s ct p) (cars s)
    ++ (if candidateb s ct p car then [car] else []).
Proof.
  rewrite add_car_run. simpl. rewrite List.filter_app. simpl. done.
Qed.

(** X13. [add_car] puts the car at the end of the fleet and so does not
    disturb what was there: a reservation [reserve_car] would return
    before the car is added it returns after, with the same effect on the
    ledger (the two calls commute); an availability that was true stays
    true; and a car of another category changes no outcome of a request
    for the category. *)
Theorem add_car_keeps_outcomes s car clk0 clk ct start days :
  (forall r s1,
     reserve_car ct start days clk s = (Return r, s1) ->
     reserve_car ct start days clk (snd (add_car car clk0 s))
     = (Return r, snd (add_car car clk0 s1)))
  /\ (fst (check_availability ct start days clk s) = Return true ->
      fst (check_availability ct start days clk (snd (add_car car clk0 s)))
      = Return true)
  /\ (car_type car <> ct ->
      fst (reserve_car ct start days clk (snd (add_car car clk0 s)))
      = fst (reserve_car ct start days clk s)
      /\ fst (check_availability ct start days clk (snd (add_car car clk0 s)))
         = fst (check_availability ct start days clk s)).
Proof.
  split; [|split].
  - intros r s1 (Hd & Hs & Hr & c & tl & Hf & -> & ->)%reserve_car_Return_inv.
    rewrite reserve_car_run.
    destruct (decide (days <= 0)); [lia|].
    destruct (decide (start < clk)); [lia|].
    rewrite (new_period_representable _ _ Hr).
    by rewrite filter_candidates_add_car, Hf.
  - rewrite !check_availability_run.
    destruct (new_period_cases start days) as [[_ Hq]|[_ Hq]]; rewrite Hq.
    + rewrite filter_candidates_add_car. simpl.
      destruct (List.filter _ (cars s)); [done|]. done.
    + by destruct (existsb _ (cars s)).
  - intros Hct. rewrite !reserve_car_run, !check_availability_run.
    destruct (new_period start days) as [p|e].
    + rewrite filter_candidates_add_car.
      assert (candidateb s ct p car = false) as ->.
      { unfold candidateb. by rewrite (bool_decide_eq_false_2 _ Hct). }
      rewrite app_nil_r. split; [|done].
      destruct (decide (days <= 0)); [done|].
      destruct (decide (start < clk)); [done|].
      by destruct (List.filter _ _).
    + rewrite add_car_run. simpl. rewrite existsb_app. simpl.
      rewrite (bool_decide_eq_false_2 _ Hct), !orb_false_r. split.
      * destruct (decide (days <= 0)); [done|].
        destruct (decide (start < clk)); [done|].
        by destruct (existsb _ _).
      * by destruct (existsb _ _).
Qed.

Lemma add_car_keeps_outcomes_witness :
  reserve_car SEDAN (t2030 + US_PER_DAY) 3 t2030
    (snd (add_car (mkCar 9 SEDAN) t2030 test_fleet))
  = (Return (mkReservation 1 (requested_period (t2030 + US_PER_DAY) 3)),
     snd (add_car (mkCar 9 SEDAN) t2030
            (append_reservation 1
               (mkReservation 1 (requested_period (t2030 + US_PER_DAY) 3))
               test_fleet))).
Proof.
  destruct (add_car_keeps_outcomes test_fleet (mkCar 9 SEDAN) t2030 t2030
              SEDAN (t2030 + US_PER_DAY) 3) as (H & _ & _).
  apply H. vm_compute. reflexivity.
Defined.

(** X14. A new car relieves an exhausted category: when [reserve_car]
    raises the no-cars error for a request whose range the library can
    build, then after [add_car] of a car of the category whose identifier
    holds no reservation in conflict with the range, the same request
    returns a reservation of that car. *)
Theorem add_car_relieves s car clk0 clk ct start days :
  fst (reserve_car ct start days clk s) = Raise NoAvailableCars ->
  representable start days ->
  car_type car = ct ->
  car_free s (requested_period start days) car ->
  fst (reserve_car ct start days clk (snd (add_car car clk0 s)))
  = Return (mkReservation (car_id car) (requested_period start days)).
Proof.
  rewrite !reserve_car_run. unfold InvalidDuration, PastStartDate.
  intros Hno Hr Hct Hfree.
  destruct (decide (days <= 0)); [done|].
  destruct (decide (start < clk)); [done|].
  rewrite (new_period_representable _ _ Hr) in *.
  rewrite filter_candidates_add_car.
  destruct (List.filter _ (cars s)) as [|c tl]; [|done]. simpl.
  assert (candidateb s ct (requested_period start days) car = true) as ->;
    [|done].
  by apply candidateb_candidate.
Qed.

Lemma add_car_relieves_witness :
  fst (reserve_car VAN (t2030 + US_PER_DAY) 3 t2030
         (snd (add_car (mkCar 5 VAN) t2030
                 (snd (reserve_car VAN (t2030 + US_PER_DAY) 3 t2030
                         test_fleet)))))
  = Return (mkReservation (car_id (mkCar 5 VAN))
              (requested_period (t2030 + US_PER_DAY) 3)).
Proof.
  apply (add_car_relieves
           (snd (reserve_car VAN (t2030 + US_PER_DAY) 3 t2030 test_fleet))
           (mkCar 5 VAN) t2030 t2030 VAN (t2030 + US_PER_DAY) 3).
  - vm_compute. reflexivity.
  - vm_compute. repeat split; discriminate.
  - reflexivity.
  - intros r Hr. vm_compute in Hr. by apply not_elem_of_nil in Hr.
Defined.

(** * What every reachable ledger satisfies *)

Lemma reserve_car_Raise_state ct start days clk s e s' :
  reserve_car ct start days clk s = (Raise e, s') -> s' = s.
Proof.
  rewrite reserve_car_run.
  destruct (decide (days <= 0)); [by intros [= _ <-]|].
  destruct (decide (start < clk)); [by intros [= _ <-]|].
  destruct (new_period start days) as [p|e'].
  - destruct (List.filter _ _); [by intros [= _ <-]|done].
  - destruct (existsb _ _); by intros [= _ <-].
Qed.

(** An invariant that the new inventory has and every call keeps holds of
    every reachable inventory. *)
Lemma reachable_ind_calls (P : InMemoryCarInventory -> Prop) :
  P InMemoryCarInventory_init ->
  (forall car clk s, P s -> P (snd (add_car car clk s))) ->
  (forall ct start days clk s r s',
     P s -> reserve_car ct start days clk s = (Return r, s') -> P s') ->
  forall s, reachable s -> P s.
Proof.
  intros Hinit Hadd Hres s. induction 1 as [|s c clk _ IH]; [done|].
  destruct c as [car|ct start days|ct start days]; simpl.
  - by apply (Hadd car clk).
  - by rewrite check_availability_pure.
  - destruct (reserve_car ct start days clk s) as [[r|e] s'] eqn:Hrun.
    + by apply (Hres ct start days clk s r s').
    + simpl. by rewrite (reserve_car_Raise_state _ _ _ _ _ _ _ Hrun).
Qed.

Lemma filter_head_elem_of {A} (f : A -> bool) (l : list A) x tl :
  List.filter f l = x :: tl -> x ∈ l.
Proof.
  intros (i & Hi & _)%filter_head_first. apply list_elem_of_lookup. eauto.
Qed.

(** X15. In every inventory reachable from a new one, every key of the
    reservation dict is the identifier of a car of the fleet, its list is
    not empty, and every reservation in the list is made out to that
    identifier. *)
Theorem reachable_ledger_refers_to_fleet s :
  reachable s -> ledger_refers_to_fleet s.
Proof.
  apply reachable_ind_calls.
  - intros cid rs Hl. unfold InMemoryCarInventory_init in Hl.
    cbn [reservations] in Hl. by rewrite lookup_empty in Hl.
  - intros car clk s0 Hinv cid rs Hl. rewrite add_car_run in *. simpl in *.
    destruct (Hinv cid rs Hl) as (Hne & (c & Hc & Hid) & Hall).
    split; [done|]. split; [|done]. exists c. split; [|done].
    apply elem_of_app. by left.
  - intros ct start days clk s0 r0 s' Hinv
      (_ & _ & _ & c & tl & Hf & -> & ->)%reserve_car_Return_inv cid rs Hl.
    unfold append_reservation in *. cbn [reservations cars] in *.
    destruct (decide (car_id c = cid)) as [<-|Hne].
    + rewrite lookup_insert_eq in Hl. injection Hl as <-.
      split; [by destruct (reservations_get s0 (car_id c))|].
      split; [exists c; split; [by eapply filter_head_elem_of|done]|].
      intros r [Hr|Hr]%elem_of_app.
      * unfold reservations_get in Hr.
        destruct (reservations s0 !! car_id c) as [old|] eqn:Hold;
          simpl in Hr; [|by apply not_elem_of_nil in Hr].
        by apply (Hinv (car_id c) old Hold).
      * by apply list_elem_of_singleton in Hr as ->.
    + rewrite lookup_insert_ne in Hl; [|done]. by apply Hinv.
Qed.

Lemma reachable_ledger_refers_to_fleet_witness :
  ledger_refers_to_fleet
    (after_call (CallReserveCar SEDAN (t2030 + US_PER_DAY) 2) t2030
       (after_call (CallAddCar (mkCar 1 SEDAN)) t2030
          InMemoryCarInventory_init)).
Proof.
  apply (reachable_ledger_refers_to_fleet _).
  do 2 apply reachable_call. apply reachable_init.
Defined.

(** X16. In every inventory reachable from a new one, every reservation
    held covers a whole number of days, at least one, from its start, and
    ends within the library's datetimes; so no held range is empty or
    inverted, although [check_availability] accepts such ranges. *)
Theorem reachable_periods_whole_days s :
  reachable s -> periods_whole_days s.
Proof.
  apply reachable_ind_calls.
  - intros cid rs r Hl. unfold InMemoryCarInventory_init in Hl.
    cbn [reservations] in Hl. by rewrite lookup_empty in Hl.
  - intros car clk s0 Hinv cid rs r Hl. by apply (Hinv cid rs r).
  - intros ct start days clk s0 r0 s' Hinv
      (Hd & _ & Hr & c & tl & _ & -> & ->)%reserve_car_Return_inv cid rs r Hl Hin.
    unfold append_reservation in *. cbn [reservations] in *.
    destruct (decide (car_id c = cid)) as [<-|Hne].
    + rewrite lookup_insert_eq in Hl. injection Hl as <-.
      apply elem_of_app in Hin as [Hin|Hin].
      * unfold reservations_get in Hin.
        destruct (reservations s0 !! car_id c) as [old|] eqn:Hold;
          simpl in Hin; [|by apply not_elem_of_nil in Hin].
        by apply (Hinv (car_id c) old r Hold).
      * apply list_elem_of_singleton in Hin as ->. simpl.
        exists days. destruct Hr as [_ [_ Hmax]]. by repeat split.
    + rewrite lookup_insert_ne in Hl; [|done]. by apply (Hinv cid rs r).
Qed.

Lemma reachable_periods_whole_days_witness :
  periods_whole_days
    (after_call (CallReserveCar SEDAN (t2030 + US_PER_DAY) 2) t2030
       (after_call (CallAddCar (mkCar 1 SEDAN)) t2030
          InMemoryCarInventory_init)).
Proof.
  apply (reachable_periods_whole_days _).
  do 2 apply reachable_call. apply reachable_init.
Defined.

(** * Nothing is ever removed *)

Lemma ledger_extends_refl s : ledger_extends s s.
Proof. split; [done|]. intros cid. done. Qed.

Lemma ledger_extends_trans s1 s2 s3 :
  ledger_extends s1 s2 -> ledger_extends s2 s3 -> ledger_extends s1 s3.
Proof.
  intros [Hc1 Hr1] [Hc2 Hr2]. split; [by etrans|].
  intros cid. etrans; [apply Hr1|apply Hr2].
Qed.

Lemma ledger_extends_after_call c clk s :
  ledger_extends s (after_call c clk s).
Proof.
  destruct c as [car|ct start days|ct start days]; simpl.
  - split; [by apply prefix_app_r|done].
  - rewrite check_availability_pure. apply ledger_extends_refl.
  - destruct (reserve_car ct start days clk s) as [[r|e] s'] eqn:Hrun; simpl.
    + apply reserve_car_Return_inv in Hrun
        as (_ & _ & _ & c & tl & _ & -> & ->).
      split; [done|]. intros cid. rewrite reservations_get_append.
      destruct (decide (cid = car_id c)) as [->|_]; [|done].
      by apply prefix_app_r.
    + rewrite (reserve_car_Raise_state _ _ _ _ _ _ _ Hrun).
      apply ledger_extends_refl.
Qed.

(** X17. No sequence of calls removes, replaces or reorders anything:
    after any calls, made at any clock readings and whether they return
    or raise, the fleet begins with the fleet as it was, and the list held
    under each identifier begins with the list as it was. *)
Theorem calls_only_extend (cs : list (call * datetime)) s :
  ledger_extends s (after_calls cs s).
Proof.
  revert s. induction cs as [|[c clk] cs IH]; intros s.
  - apply ledger_extends_refl.
  - simpl. eapply ledger_extends_trans; [|apply IH].
    apply ledger_extends_after_call.
Qed.

(** * The clock, and reading a booking back *)

(** X18. The clock enters [reserve_car] through the past-start test
    only: at two readings that are both not after the start the call
    gives the same outcome and the same ledger, and with [days <= 0] it
    gives the same at any two readings. *)
Theorem reserve_car_clock s clk clk' ct start days :
  (clk <= start -> clk' <= start ->
   reserve_car ct start days clk s = reserve_car ct start days clk' s)
  /\ (days <= 0 ->
      reserve_car ct start days clk s = reserve_car ct start days clk' s).
Proof.
  rewrite !reserve_car_run. split.
  - intros H1 H2. destruct (decide (days <= 0)); [done|].
    destruct (decide (start < clk)); [lia|].
    destruct (decide (start < clk')); [lia|]. done.
  - intros Hd. by destruct (decide (days <= 0)).
Qed.

Lemma reserve_car_clock_witness :
  reserve_car SUV (t2030 + US_PER_DAY) 3 t2030 test_fleet
  = reserve_car SUV (t2030 + US_PER_DAY) 3 (t2030 + US_PER_DAY) test_fleet.
Proof.
  destruct (reserve_car_clock test_fleet t2030 (t2030 + US_PER_DAY) SUV
              (t2030 + US_PER_DAY) 3) as [H _].
  apply H; unfold US_PER_DAY; lia.
Defined.

(** X19. A returned reservation can be read back: the dict then has the
    booked identifier as a key (indexing it does not fail), the
    reservation is the last entry of the list held there, after the
    entries held before, and [is_car_reserved] answers true for the
    booked identifier and the same request. *)
Theorem reserve_car_read_back ct start days clk clk' s r s' :
  reserve_car ct start days clk s = (Return r, s') ->
  reservations s' !! res_car_id r
  = Some (reservations_get s (res_car_id r) ++ [r])
  /\ last (reservations_get s' (res_car_id r)) = Some r
  /\ is_car_reserved (res_car_id r) start days clk' s' = (Return true, s').
Proof.
  intros (Hd & _ & Hr & c & tl & _ & -> & ->)%reserve_car_Return_inv. simpl.
  assert (reservations_get
            (append_reservation (car_id c)
               (mkReservation (car_id c) (requested_period start days)) s)
            (car_id c)
          = reservations_get s (car_id c)
            ++ [mkReservation (car_id c) (requested_period start days)])
    as Hget.
  { rewrite reservations_get_append. by destruct (decide _). }
  split; [|split].
  - unfold append_reservation. cbn [reservations].
    by rewrite lookup_insert_eq.
  - rewrite Hget. apply last_snoc.
  - rewrite is_car_reserved_run, (new_period_representable _ _ Hr), Hget.
    rewrite existsb_app. simpl.
    rewrite (proj2 (conflicts_with_self (requested_period start days))
               (requested_period_not_empty start days Hd)).
    by rewrite orb_true_r.
Qed.

Lemma reserve_car_read_back_witness :
  reservations
    (append_reservation 3
       (mkReservation 3 (requested_period (t2030 + US_PER_DAY) 3)) test_fleet)
  !! res_car_id (mkReservation 3 (requested_period (t2030 + US_PER_DAY) 3))
  = Some (reservations_get test_fleet
            (res_car_id
               (mkReservation 3 (requested_period (t2030 + US_PER_DAY) 3)))
          ++ [mkReservation 3 (requested_period (t2030 + US_PER_DAY) 3)])
  /\ last (reservations_get
             (append_reservation 3
                (mkReservation 3 (requested_period (t2030 + US_PER_DAY) 3))
                test_fleet)
             (res_car_id
                (mkReservation 3 (requested_period (t2030 + US_PER_DAY) 3))))
     = Some (mkReservation 3 (requested_period (t2030 + US_PER_DAY) 3))
  /\ is_car_reserved
       (res_car_id (mkReservation 3 (requested_period (t2030 + US_PER_DAY) 3)))
       (t2030 + US_PER_DAY) 3 (t2030 + 1)
       (append_reservation 3
          (mkReservation 3 (requested_period (t2030 + US_PER_DAY) 3))
          test_fleet)
     = (Return true,
        append_reservation 3
          (mkReservation 3 (requested_period (t2030 + US_PER_DAY) 3))
          test_fleet).
Proof.
  apply (reserve_car_read_back SUV (t2030 + US_PER_DAY) 3 t2030 (t2030 + 1)
           test_fleet).
  vm_compute. reflexivity.
Defined.
